(** * xmi-converter: XMI to JSON / CoNLL conversion

    A shallow embedding of [xmi2json.py] and [xmi2conll.py] and the
    properties of their extraction, alignment and tagging stages.

    Modelling conventions.
    - A Python [str] is a list of characters ([str := list ascii]); the
      development covers ASCII text, so [\d] is [0-9], [\w] is
      [A-Za-z0-9_] and whitespace is the ASCII part of Python's
      [str.isspace] (TAB..CR, FS..US and the blank).  The codes above 127
      belong to no character class.
    - Python integers are [Z]; [int(...)] of a string refuses more than
      4300 digits, the interpreter's default limit.
    - A [dict] is an insertion-ordered association list: assigning an
      existing key replaces the value in place, a new key goes to the end.
    - Exceptions are the [Err] side of [result].
    - [xml.etree.ElementTree] is a library: its result (the Sofa element and
      the Token elements, with their attribute tables) is part of the input,
      next to the raw text that the line scanner reads. *)

From Stdlib Require Import Strings.String Numbers.DecimalString.
From Stdlib Require Import List ZArith Lia Bool Ascii Arith.
Import ListNotations.

Local Open Scope Z_scope.
Local Open Scope list_scope.

(* ================================================================= *)
(** ** Python values *)

Definition str := list ascii.

(** String literals. *)
Definition s2l (s : string) : str := list_ascii_of_string s.
Notation "'$' s" := (s2l s%string) (at level 1, s at level 0, format "'$' s").

Definition str_eqb (a b : str) : bool :=
  if list_eq_dec ascii_dec a b then true else false.

Inductive pyval :=
| VInt (z : Z)
| VStr (s : str).

Inductive exn :=
| ValueError
| TypeError
| KeyError
| AttributeError
| ParseError.

Inductive result (A : Type) :=
| Ok (a : A)
| Err (e : exn).
Arguments Ok {A} a.
Arguments Err {A} e.

Definition bind {A B} (r : result A) (k : A -> result B) : result B :=
  match r with
  | Ok a => k a
  | Err e => Err e
  end.

Notation "x <- c ;; k" := (bind c (fun x => k))
  (at level 61, c at next level, right associativity).

(** [for x in xs: acc = body(acc, x)], stopping at the first exception. *)
Fixpoint for_each {A S} (body : S -> A -> result S) (xs : list A) (acc : S)
  : result S :=
  match xs with
  | [] => Ok acc
  | x :: rest => acc' <- body acc x ;; for_each body rest acc'
  end.

(* ----------------------------------------------------------------- *)
(** *** Dictionaries *)

Section Assoc.
Context {K V : Type} (eqb : K -> K -> bool).

Fixpoint assoc_get (d : list (K * V)) (k : K) : option V :=
  match d with
  | [] => None
  | (k', v) :: rest => if eqb k' k then Some v else assoc_get rest k
  end.

(** [d[k] = v] *)
Fixpoint assoc_set (d : list (K * V)) (k : K) (v : V) : list (K * V) :=
  match d with
  | [] => [(k, v)]
  | (k', v') :: rest =>
      if eqb k' k then (k', v) :: rest else (k', v') :: assoc_set rest k v
  end.
End Assoc.

Definition pyval_eqb (a b : pyval) : bool :=
  match a, b with
  | VInt x, VInt y => x =? y
  | VStr x, VStr y => str_eqb x y
  | _, _ => false
  end.

(** Records: string keys. *)
Definition dict (V : Type) := list (str * V).
Definition dict_get {V} (d : dict V) (k : str) : option V := assoc_get str_eqb d k.
Definition dict_set {V} (d : dict V) (k : str) (v : V) : dict V := assoc_set str_eqb d k v.

(** [k in d] *)
Definition dict_mem {V} (k : str) (d : dict V) : bool :=
  match dict_get d k with
  | Some _ => true
  | None => false
  end.

(** [d[k]], raising [KeyError]. *)
Definition dict_item {V} (d : dict V) (k : str) : result V :=
  match dict_get d k with
  | Some v => Ok v
  | None => Err KeyError
  end.

(** Mappings keyed by an arbitrary value ([annos], [ners], [relations]). *)
Definition pdict (V : Type) := list (pyval * V).
Definition pdict_get {V} (d : pdict V) (k : pyval) : option V := assoc_get pyval_eqb d k.
Definition pdict_set {V} (d : pdict V) (k : pyval) (v : V) : pdict V := assoc_set pyval_eqb d k v.

(** [token_labels]: keyed by a start offset. *)
Definition zdict (V : Type) := list (Z * V).
Definition zdict_get {V} (d : zdict V) (k : Z) : option V := assoc_get Z.eqb d k.
Definition zdict_set {V} (d : zdict V) (k : Z) (v : V) : zdict V := assoc_set Z.eqb d k v.

(** [token_lookup]: keyed by a pair of offsets. *)
Definition span_eqb (a b : Z * Z) : bool := (fst a =? fst b) && (snd a =? snd b).
Definition odict (V : Type) := list ((Z * Z) * V).
Definition odict_set {V} (d : odict V) (k : Z * Z) (v : V) : odict V := assoc_set span_eqb d k v.

(* ================================================================= *)
(** ** String primitives of the Python runtime *)

Definition len (s : str) : Z := Z.of_nat (length s).

(** [c.isspace()] on ASCII. *)
Definition isspace (c : ascii) : bool :=
  let n := nat_of_ascii c in
  ((9 <=? n) && (n <=? 13) || (28 <=? n) && (n <=? 32))%nat.

(** [\d] *)
Definition isdigit (c : ascii) : bool :=
  let n := nat_of_ascii c in
  ((48 <=? n) && (n <=? 57))%nat.

(** [\w] *)
Definition isword (c : ascii) : bool :=
  let n := nat_of_ascii c in
  (isdigit c
   || (65 <=? n) && (n <=? 90)
   || (97 <=? n) && (n <=? 122)
   || (n =? 95))%nat.

Fixpoint dropwhile {A} (f : A -> bool) (l : list A) : list A :=
  match l with
  | [] => []
  | x :: rest => if f x then dropwhile f rest else l
  end.

Fixpoint takewhile {A} (f : A -> bool) (l : list A) : list A :=
  match l with
  | [] => []
  | x :: rest => if f x then x :: takewhile f rest else []
  end.

(** [s.strip()] *)
Definition strip (s : str) : str :=
  rev (dropwhile isspace (rev (dropwhile isspace s))).

(** [s.split()]: skip a run of whitespace, take the run of other
    characters after it as the next piece, and go on from its end. *)
Fixpoint split_ws (s : str) : list str :=
  match s with
  | [] => []
  | c :: rest =>
      if isspace c then split_ws rest
      else
        match rest with
        | [] => [[c]]
        | d :: _ =>
            if isspace d then [c] :: split_ws rest
            else
              match split_ws rest with
              | w :: ws => (c :: w) :: ws
              | [] => [[c]]
              end
        end
  end.

(** [s.split(sep)] for a one-character separator. *)
Fixpoint split_on (sep : ascii) (s : str) : list str :=
  match s with
  | [] => [[]]
  | c :: rest =>
      if Ascii.eqb c sep then [] :: split_on sep rest
      else
        match split_on sep rest with
        | w :: ws => (c :: w) :: ws
        | [] => [[c]]
        end
  end.

(** [sep.join(parts)] *)
Fixpoint join (sep : str) (parts : list str) : str :=
  match parts with
  | [] => []
  | [p] => p
  | p :: rest => p ++ sep ++ join sep rest
  end.

Fixpoint is_prefix (p s : str) : bool :=
  match p, s with
  | [], _ => true
  | _ :: _, [] => false
  | a :: p', b :: s' => Ascii.eqb a b && is_prefix p' s'
  end.

(** Lowest index [>= i] at which [tok] occurs, [s] being the text from
    index [i] on. *)
Fixpoint find_from (tok s : str) (i : nat) : option nat :=
  if is_prefix tok s then Some i
  else
    match s with
    | [] => None
    | _ :: rest => find_from tok rest (S i)
    end.

(** Python's adjustment of a slice or search bound to [0..len]. *)
Definition clamp_index (n : Z) (i : Z) : Z :=
  let i := if i <? 0 then i + n else i in
  if i <? 0 then 0 else if n <? i then n else i.

(** [text.find(tok, start)] *)
Definition find (text tok : str) (start : Z) : Z :=
  let start' := if start <? 0 then Z.max 0 (start + len text) else start in
  if len text <? start' then -1
  else
    match find_from tok (skipn (Z.to_nat start') text) (Z.to_nat start') with
    | Some i => Z.of_nat i
    | None => -1
    end.

(** [s[b:e]] *)
Definition slice (s : str) (b e : Z) : str :=
  let b' := Z.to_nat (clamp_index (len s) b) in
  let e' := Z.to_nat (clamp_index (len s) e) in
  firstn (e' - b') (skipn b' s).

(** [re.sub(r'\s+', ' ', s)]: each maximal run of whitespace becomes one
    blank; [in_run] tells that the run's blank is already written. *)
Fixpoint collapse_ws_from (in_run : bool) (s : str) : str :=
  match s with
  | [] => []
  | c :: rest =>
      if isspace c then
        if in_run then collapse_ws_from true rest
        else " "%char :: collapse_ws_from true rest
      else c :: collapse_ws_from false rest
  end.

Definition collapse_ws (s : str) : str := collapse_ws_from false s.

Definition dquote : ascii := ascii_of_nat 34.

(** [int(s)] for a string: blanks around, an optional sign, then digits
    with single underscores between them. *)
Definition digit_val (c : ascii) : Z := Z.of_nat (nat_of_ascii c) - 48.

Fixpoint int_digits (s : str) (acc : Z) (after_digit : bool) : option Z :=
  match s with
  | [] => if after_digit then Some acc else None
  | c :: rest =>
      if isdigit c then int_digits rest (10 * acc + digit_val c) true
      else if Ascii.eqb c "_" then
        if after_digit then int_digits rest acc false else None
      else None
  end.

(** The interpreter's default limit on the digits of a string that [int]
    converts: a string with more digits is refused, valid or not. *)
Definition int_max_str_digits : nat := 4300.

(** The digits of the part after the sign, underscores not counted. *)
Definition count_digits (s : str) : nat := length (filter isdigit s).

Definition int_body (s : str) : option Z :=
  if (int_max_str_digits <? count_digits s)%nat then None
  else int_digits s 0 false.

Definition py_int (s : str) : option Z :=
  match strip s with
  | [] => None
  | c :: rest =>
      if Ascii.eqb c "-" then option_map Z.opp (int_body rest)
      else if Ascii.eqb c "+" then int_body rest
      else int_body (c :: rest)
  end.

(** [int(x)] where [x] may be [None]. *)
Definition int_ (x : option str) : result Z :=
  match x with
  | None => Err TypeError
  | Some s =>
      match py_int s with
      | Some z => Ok z
      | None => Err ValueError
      end
  end.

(** [str(z)] *)
Definition str_of_int (z : Z) : str :=
  list_ascii_of_string (NilZero.string_of_int (Z.to_int z)).

(** [str(v)], as an f-string field formats it. *)
Definition py_str (v : pyval) : str :=
  match v with
  | VInt z => str_of_int z
  | VStr s => s
  end.

(* ================================================================= *)
(** ** The regular expressions of the line scanner

    Each probe is written as the backtracking matcher runs it.  A greedy
    run (of digits, of word characters, of characters other than the
    double quote) is taken whole: a shorter run would be followed by one
    more character of the run, never by the delimiter the pattern asks for
    next, so backtracking into it cannot succeed.  In the comments below
    [Q] stands for the double quote character. *)

(** A literal at the current position; the text after it. *)
Fixpoint strip_prefix (p s : str) : option str :=
  match p with
  | [] => Some s
  | a :: p' =>
      match s with
      | [] => None
      | b :: s' => if Ascii.eqb a b then strip_prefix p' s' else None
      end
  end.

(** [re.search]: the match at the leftmost position that has one. *)
Fixpoint re_search {A} (at_pos : str -> option A) (s : str) : option A :=
  match at_pos s with
  | Some a => Some a
  | None =>
      match s with
      | [] => None
      | _ :: rest => re_search at_pos rest
      end
  end.

(** [re.findall]: matches from left to right, the scan resuming at the end
    of each match; [skip] counts the characters of the last match still to
    pass.  A match gives its groups and its length. *)
Fixpoint re_findall_from {A} (at_pos : str -> option (A * nat)) (skip : nat)
    (s : str) : list A :=
  match s with
  | [] => []
  | _ :: rest =>
      match skip with
      | S k => re_findall_from at_pos k rest
      | O =>
          match at_pos s with
          | Some (a, n) => a :: re_findall_from at_pos (Nat.pred n) rest
          | None => re_findall_from at_pos O rest
          end
      end
  end.

Definition re_findall {A} (at_pos : str -> option (A * nat)) (s : str) : list A :=
  re_findall_from at_pos O s.

(** [lit(\d+)Q] at a position, for a literal [lit]; group 1. *)
Definition quoted_digits_at (lit : str) (s : str) : option str :=
  match strip_prefix lit s with
  | None => None
  | Some rest =>
      match takewhile isdigit rest with
      | [] => None
      | ds =>
          match strip_prefix [dquote] (dropwhile isdigit rest) with
          | Some _ => Some ds
          | None => None
          end
      end
  end.

(** [:(\w+)] at a position; group 1. *)
Definition colon_word_at (s : str) : option str :=
  match s with
  | c :: rest =>
      if Ascii.eqb c ":" then
        match takewhile isword rest with
        | [] => None
        | w => Some w
        end
      else None
  | [] => None
  end.

(** [<custom\d?:(\w+)] at a position: the optional digit is tried first,
    then the match without it. *)
Definition label_at (s : str) : option str :=
  match strip_prefix $"<custom" s with
  | None => None
  | Some rest =>
      match rest with
      | d :: rest' =>
          if isdigit d then
            match colon_word_at rest' with
            | Some w => Some w
            | None => colon_word_at rest
            end
          else colon_word_at rest
      | [] => None
      end
  end.

Definition notquote (c : ascii) : bool := negb (Ascii.eqb c dquote).

(** [(\w+)=Q([^Q]+)Q] at a position; groups 1 and 2 and the length of
    the match. *)
Definition attribute_at (s : str) : option ((str * str) * nat) :=
  match takewhile isword s with
  | [] => None
  | name =>
      match strip_prefix ["="%char; dquote] (dropwhile isword s) with
      | None => None
      | Some rest =>
          match takewhile notquote rest with
          | [] => None
          | value =>
              match dropwhile notquote rest with
              | _ :: _ =>
                  Some ((name, value), (length name + 2 + length value + 1)%nat)
              | [] => None
              end
          end
      end
  end.

Definition label_pattern (s : str) : option str := re_search label_at s.
Definition xmi_id_pattern (s : str) : option str :=
  re_search (quoted_digits_at ($"xmi:id=" ++ [dquote])) s.
Definition begin_pattern (s : str) : option str :=
  re_search (quoted_digits_at ($"begin=" ++ [dquote])) s.
Definition end_pattern (s : str) : option str :=
  re_search (quoted_digits_at ($"end=" ++ [dquote])) s.
Definition attribute_pattern (s : str) : list (str * str) :=
  re_findall attribute_at s.

(* ================================================================= *)
(** ** The parsed document

    What [ET.fromstring] hands to the program: the first Sofa element, if
    any, and the Token elements in document order, each with its attribute
    table ([element.get(name)] is a lookup in it). *)

Record element := { attrib : dict str }.

Definition element_get (e : element) (name : str) : option str :=
  dict_get (attrib e) name.

Record xmi_tree := {
  sofa_element : option element;
  token_elements : list element
}.

(** A token of the JSON path. *)
Record token := {
  tok_xmi_id : option str;
  tok_begin : Z;
  tok_end : Z;
  tok_token : str
}.

(** A flattened relationship. *)
Record relationship := {
  rel_xmi_id : pyval;
  rel_label : pyval;
  rel_dep : pyval;
  rel_gov : pyval
}.

Definition record := dict pyval.

Definition UNKNOWN : str := $"UNKNOWN".

(** [s[b:e]] where [s] may be [None]. *)
Definition subscript (s : option str) (b e : Z) : result str :=
  match s with
  | Some t => Ok (slice t b e)
  | None => Err TypeError
  end.

Definition is_nil {A} (l : list A) : bool :=
  match l with
  | [] => true
  | _ => false
  end.

(** Sequential [map] and [filter] that stop at the first exception. *)
Fixpoint map_r {A B} (f : A -> result B) (l : list A) : result (list B) :=
  match l with
  | [] => Ok []
  | x :: rest => y <- f x ;; ys <- map_r f rest ;; Ok (y :: ys)
  end.

Fixpoint filter_r {A} (f : A -> result bool) (l : list A) : result (list A) :=
  match l with
  | [] => Ok []
  | x :: rest =>
      b <- f x ;; ys <- filter_r f rest ;; Ok (if b then x :: ys else ys)
  end.

(** [a <= v] and [v <= a] for an integer [a] and a field [v] of a record:
    comparing an integer with a string raises. *)
Definition int_le_val (a : Z) (v : pyval) : result bool :=
  match v with
  | VInt b => Ok (a <=? b)
  | VStr _ => Err TypeError
  end.

Definition val_le_int (v : pyval) (a : Z) : result bool :=
  match v with
  | VInt b => Ok (b <=? a)
  | VStr _ => Err TypeError
  end.

(* ================================================================= *)
(** ** xmi2json.py *)

Module xmi2json.
Section WithParser.

(** [ET.fromstring] *)
Variable ET_fromstring : str -> result xmi_tree.

(** [sofa_element.get("sofaString") if sofa_element is not None else ""] *)
Definition sofa_string (root : xmi_tree) : option str :=
  match sofa_element root with
  | Some el => element_get el $"sofaString"
  | None => Some []
  end.

(** The body of the token loop. *)
Definition token_step (sofa_text : option str)
    (acc : list token * odict str) (tok : element)
  : result (list token * odict str) :=
  let '(tokens, token_lookup) := acc in
  let xmi_id := element_get tok $"xmi:id" in
  begin_ <- int_ (element_get tok $"begin") ;;
  end_ <- int_ (element_get tok $"end") ;;
  sliced <- subscript sofa_text begin_ end_ ;;
  let token_text := collapse_ws (strip sliced) in
  if is_nil token_text then Ok (tokens, token_lookup)
  else
    Ok (tokens ++ [ {| tok_xmi_id := xmi_id; tok_begin := begin_;
                       tok_end := end_; tok_token := token_text |} ],
        odict_set token_lookup (begin_, end_) token_text).

Definition extract_tokens_from_xmi (xmi_content : str)
  : result (list token * odict str) :=
  root <- ET_fromstring xmi_content ;;
  for_each (token_step (sofa_string root)) (token_elements root) ([], []).

Definition reserved : list str := [ $"xmi:id"; $"begin"; $"end"; $"sofa" ].

(** The attribute loop of an accepted line. *)
Definition add_attribute (anno_data : record) (a : str * str) : record :=
  let '(attr_name, attr_value) := a in
  if existsb (str_eqb attr_name) reserved then anno_data
  else dict_set anno_data attr_name (VStr attr_value).

(** The record of an accepted line. *)
Definition build_anno (xmi_line xmi_id begin_ end_ label : str)
  : result record :=
  b <- int_ (Some begin_) ;;
  e <- int_ (Some end_) ;;
  let anno_data :=
    [ ($"xmi_id", VStr xmi_id); ($"begin", VInt b); ($"end", VInt e);
      ($"label", VStr label) ] in
  Ok (fold_left add_attribute (attribute_pattern xmi_line) anno_data).

(** The body of the line loop. *)
Definition line_step (annos : pdict record) (xmi_line : str)
  : result (pdict record) :=
  match label_pattern xmi_line, xmi_id_pattern xmi_line,
        begin_pattern xmi_line, end_pattern xmi_line with
  | Some label, Some xmi_id, Some begin_, Some end_ =>
      anno_data <- build_anno xmi_line xmi_id begin_ end_ label ;;
      key <- dict_item anno_data $"xmi_id" ;;
      Ok (pdict_set annos key anno_data)
  | _, _, _, _ => Ok annos
  end.

Definition newline : ascii := ascii_of_nat 10.

Definition scan_annos (xmi_content : str) : result (pdict record) :=
  for_each line_step (split_on newline xmi_content) [].

Definition is_ner (v : record) : bool :=
  negb (dict_mem $"Dependent" v) && negb (dict_mem $"Governor" v).

Definition is_relation (v : record) : bool :=
  dict_mem $"Dependent" v && dict_mem $"Governor" v.

(** A comprehension over the items of a dict keeps, in order, the items
    that pass its test. *)
Definition extract_custom_annos (xmi_content : str)
  : result (pdict record * pdict record) :=
  annos <- scan_annos xmi_content ;;
  let ners := filter (fun kv => is_ner (snd kv)) annos in
  let relations := filter (fun kv => is_relation (snd kv)) annos in
  Ok (ners, relations).

(** [span["begin"] <= token["begin"] <= span["end"]]: the second
    comparison is evaluated only when the first holds. *)
Definition starts_in_span (span : record) (t : token) : result bool :=
  b <- dict_item span $"begin" ;;
  c <- val_le_int b (tok_begin t) ;;
  if c then
    e <- dict_item span $"end" ;;
    int_le_val (tok_begin t) e
  else Ok false.

Definition span_text (span_tokens : list token) : str :=
  if is_nil span_tokens then UNKNOWN
  else join $" " (map tok_token span_tokens).

Definition map_span (tokens : list token) (kv : pyval * record)
  : result (pyval * record) :=
  let '(k, span) := kv in
  span_tokens <- filter_r (starts_in_span span) tokens ;;
  Ok (k, dict_set span $"token" (VStr (span_text span_tokens))).

Definition map_tokens_to_spans (tokens : list token)
    (token_lookup : odict str) (spans : pdict record)
  : result (pdict record) :=
  map_r (map_span tokens) spans.

(** [ners.get(rel.get(side), {}).get("token", "UNKNOWN")] *)
Definition resolve (ners : pdict record) (rel : record) (side : str) : pyval :=
  let target : record :=
    match dict_get rel side with
    | Some ref =>
        match pdict_get ners ref with
        | Some span => span
        | None => []
        end
    | None => []
    end in
  match dict_get target $"token" with
  | Some text => text
  | None => VStr UNKNOWN
  end.

Definition map_relationship (ners : pdict record) (kv : pyval * record)
  : result relationship :=
  let rel := snd kv in
  xmi_id <- dict_item rel $"xmi_id" ;;
  label <- dict_item rel $"label" ;;
  Ok {| rel_xmi_id := xmi_id; rel_label := label;
        rel_dep := resolve ners rel $"Dependent";
        rel_gov := resolve ners rel $"Governor" |}.

Definition map_relationships (relations ners : pdict record)
  : result (list relationship) :=
  map_r (map_relationship ners) relations.

(** The conversion of one file, from its content to the two values that
    are written out; nothing is written when it raises. *)
Definition process_xmi_file (xmi_content : str)
  : result (pdict record * list relationship) :=
  tt <- extract_tokens_from_xmi xmi_content ;;
  nr <- extract_custom_annos xmi_content ;;
  ners_spans <- map_tokens_to_spans (fst tt) (snd tt) (fst nr) ;;
  relationships <- map_relationships (snd nr) ners_spans ;;
  Ok (ners_spans, relationships).

End WithParser.
End xmi2json.

(* ================================================================= *)
(** ** xmi2conll.py *)

(** An entry of [token_data]: a whitespace token with its start and end
    offsets. *)
Definition token_datum := (str * Z * Z)%type.

Definition td_token (t : token_datum) : str := fst (fst t).
Definition td_start (t : token_datum) : Z := snd (fst t).
Definition td_end (t : token_datum) : Z := snd t.

Module xmi2conll.
Section WithParser.

Variable ET_fromstring : str -> result xmi_tree.

Definition extract_sofa_string (xmi_content : str) : result (option str) :=
  root <- ET_fromstring xmi_content ;;
  Ok (xmi2json.sofa_string root).

(** The offset loop: each token is searched from the end of the one
    before it. *)
Fixpoint build_token_data (text : str) (tokens : list str)
    (current_index : Z) : list token_datum :=
  match tokens with
  | [] => []
  | tok :: rest =>
      let start_index := find text tok current_index in
      let end_index := start_index + len tok in
      (tok, start_index, end_index) :: build_token_data text rest end_index
  end.

(** [{t[1]: "O" for t in token_data}] *)
Definition init_labels (token_data : list token_datum) : zdict str :=
  fold_left (fun d t => zdict_set d (td_start t) $"O") token_data [].

(** The body of the inner loop, for one span. *)
Definition tag_token (label begin_ end_ : pyval)
    (acc : zdict str * bool) (t : token_datum) : result (zdict str * bool) :=
  let '(token_labels, inside_entity) := acc in
  c1 <- val_le_int begin_ (td_start t) ;;
  c2 <- (if c1 then int_le_val (td_end t) end_ else Ok false) ;;
  if c2 then
    if negb inside_entity then
      Ok (zdict_set token_labels (td_start t) ($"B-" ++ py_str label), true)
    else
      Ok (zdict_set token_labels (td_start t) ($"I-" ++ py_str label), true)
  else Ok (token_labels, inside_entity).

(** The body of the span loop. *)
Definition tag_span (token_data : list token_datum)
    (token_labels : zdict str) (span : record) : result (zdict str) :=
  label <- dict_item span $"label" ;;
  begin_ <- dict_item span $"begin" ;;
  end_ <- dict_item span $"end" ;;
  r <- for_each (tag_token label begin_ end_) token_data (token_labels, false) ;;
  Ok (fst r).

(** The labels after all spans, in the order of [ners_spans.values()]. *)
Definition assign_labels (token_data : list token_datum)
    (ners_spans : pdict record) : result (zdict str) :=
  for_each (tag_span token_data) (map snd ners_spans) (init_labels token_data).

(** One output line: token, start, end, label. *)
Definition conll_row := (token_datum * str)%type.

Definition label_row (token_labels : zdict str) (t : token_datum)
  : result conll_row :=
  match zdict_get token_labels (td_start t) with
  | Some l => Ok (t, l)
  | None => Err KeyError
  end.

Definition format_row (r : conll_row) : str :=
  let t := fst r in
  td_token t ++ $" " ++ str_of_int (td_start t) ++ $" "
    ++ str_of_int (td_end t) ++ $" " ++ snd r.

Definition tokenize (text : str) : list token_datum :=
  build_token_data text (split_ws text) 0.

(** The lines of the output before they are formatted and joined. *)
Definition conll_rows (text : str) (ners_spans : pdict record)
  : result (list conll_row) :=
  let token_data := tokenize text in
  token_labels <- assign_labels token_data ners_spans ;;
  map_r (label_row token_labels) token_data.

Definition convert_to_conll (xmi_content : str) (ners_spans : pdict record)
  : result str :=
  sofa <- extract_sofa_string xmi_content ;;
  text <- (match sofa with
           | Some t => Ok t
           | None => Err AttributeError
           end) ;;
  rows <- conll_rows text ners_spans ;;
  Ok (join [xmi2json.newline] (map format_row rows)).

Definition process_xmi_to_conll (xmi_content : str) : result str :=
  tt <- xmi2json.extract_tokens_from_xmi ET_fromstring xmi_content ;;
  nr <- xmi2json.extract_custom_annos xmi_content ;;
  ners_spans <- xmi2json.map_tokens_to_spans (fst tt) (snd tt) (fst nr) ;;
  convert_to_conll xmi_content ners_spans.

End WithParser.
End xmi2conll.

(* ================================================================= *)
(** ** Vocabulary of the properties *)

Definition notspace (c : ascii) : bool := negb (isspace c).

(** [located text cur data]: read from offset [cur], every entry of [data]
    is the next whitespace-delimited word of [text], at its own offsets:
    only whitespace lies between the cursor and its start. *)
Inductive located (text : str) : Z -> list token_datum -> Prop :=
| located_nil cur : located text cur []
| located_cons cur tok st en rest :
    0 <= cur <= st ->
    tok <> [] ->
    forallb notspace tok = true ->
    en = st + len tok ->
    en <= len text ->
    slice text st en = tok ->
    forallb isspace (slice text cur st) = true ->
    located text en rest ->
    located text cur ((tok, st, en) :: rest).

(** Where the search for entry [i] starts: the end of entry [i - 1], or
    [cur] for the first entry. *)
Definition cursor_before (cur : Z) (data : list token_datum)
    (i : nat) : Z :=
  match i with
  | O => cur
  | S j =>
      match nth_error data j with
      | Some p => td_end p
      | None => cur
      end
  end.

(** The label and the integer bounds of an entity span record. *)
Definition span_view (sp : record) : option (pyval * Z * Z) :=
  match dict_get sp $"label", dict_get sp $"begin", dict_get sp $"end" with
  | Some l, Some (VInt b), Some (VInt e) => Some (l, b, e)
  | _, _, _ => None
  end.

(** [x] lies within the closed interval [[b, e]]. *)
Definition withinb (b e x : Z) : bool := (b <=? x) && (x <=? e).

(** Both the start and the end of the token lie within the span. *)
Definition span_containsb (sp : record) (t : token_datum) : bool :=
  match span_view sp with
  | Some (_, b, e) => withinb b e (td_start t) && withinb b e (td_end t)
  | None => false
  end.

(** The tag of a token contained in span [sp], given the tokens before it:
    B for the first contained token, I for the others. *)
Definition bio_tag (sp : record) (earlier : list token_datum) : str :=
  match span_view sp with
  | Some (l, _, _) =>
      (if existsb (span_containsb sp) earlier then $"I-" else $"B-") ++ py_str l
  | None => []
  end.

(** The inner loop of [convert_to_conll] on integer bounds, without the
    exception plumbing. *)
Definition fitsb (b e : Z) (t : token_datum) : bool :=
  (b <=? td_start t) && (td_end t <=? e).

Definition tag_step (l : pyval) (b e : Z) (acc : zdict str * bool)
    (t : token_datum) : zdict str * bool :=
  if fitsb b e t then
    (zdict_set (fst acc) (td_start t)
       ((if snd acc then $"I-" else $"B-") ++ py_str l), true)
  else acc.

(** *** Sample inputs *)

Definition loc_span (b e : Z) : record :=
  [ ($"begin", VInt b); ($"end", VInt e); ($"label", VStr $"LOC") ].

Definition paris_text : str := $"Paris is the capital of France .".

Definition paris_tree : xmi_tree :=
  {| sofa_element := Some {| attrib := [ ($"sofaString", paris_text) ] |};
     token_elements := [] |}.

Definition lines (ls : list str) : str := join [xmi2json.newline] ls.

(** Two spans that share the tokens York and City. *)
Definition overlap_text : str := $"New York City hall".

Definition overlap_spans : pdict record :=
  [ (VStr $"1", [ ($"begin", VInt 0); ($"end", VInt 13); ($"label", VStr $"LOC") ]);
    (VStr $"2", [ ($"begin", VInt 4); ($"end", VInt 18); ($"label", VStr $"ORG") ]) ].

(** *** Span previews and relationship sides *)

(** The integer bounds of an entity span record. *)
Definition span_bounds (sp : record) : option (Z * Z) :=
  match dict_get sp $"begin", dict_get sp $"end" with
  | Some (VInt b), Some (VInt e) => Some (b, e)
  | _, _ => None
  end.

(** The tokens whose begin offset lies in the closed interval [[b, e]],
    in token order. *)
Definition tokens_starting_within (tokens : list token) (b e : Z) : list token :=
  filter (fun t => withinb b e (tok_begin t)) tokens.

(** The derived text of a span with bounds [b] and [e]. *)
Definition derived_text (tokens : list token) (b e : Z) : str :=
  match tokens_starting_within tokens b e with
  | [] => UNKNOWN
  | matched => join $" " (map tok_token matched)
  end.

(** What one side of a relationship resolves to, case by case. *)
Definition side_resolves (ners : pdict record) (rel : record) (side : str)
    (out : pyval) : Prop :=
  (forall ref span text,
      dict_get rel side = Some ref ->
      pdict_get ners ref = Some span ->
      dict_get span $"token" = Some text ->
      out = text) /\
  (forall ref span,
      dict_get rel side = Some ref ->
      pdict_get ners ref = Some span ->
      dict_get span $"token" = None ->
      out = VStr UNKNOWN) /\
  (forall ref,
      dict_get rel side = Some ref ->
      pdict_get ners ref = None ->
      out = VStr UNKNOWN) /\
  (dict_get rel side = None -> out = VStr UNKNOWN).

(** The scenario of the specification: identifier 5 resolves to a span
    with the text cat, identifier 9 is not in the mapping. *)
Definition cat_ners : pdict record :=
  [ (VStr $"5", [ ($"xmi_id", VStr $"5"); ($"begin", VInt 4); ($"end", VInt 7);
                  ($"label", VStr $"Animal"); ($"token", VStr $"cat") ]) ].

Definition cat_relations : pdict record :=
  [ (VStr $"7", [ ($"xmi_id", VStr $"7"); ($"begin", VInt 4); ($"end", VInt 7);
                  ($"label", VStr $"Chases"); ($"Dependent", VStr $"5");
                  ($"Governor", VStr $"9") ]) ].

(** Three tokens and two spans: the first span ends where the last token
    begins, no token begins in the second. *)
Definition cat_tokens : list token :=
  [ {| tok_xmi_id := None; tok_begin := 0; tok_end := 3; tok_token := $"The" |};
    {| tok_xmi_id := None; tok_begin := 4; tok_end := 9; tok_token := $"black" |};
    {| tok_xmi_id := None; tok_begin := 10; tok_end := 13; tok_token := $"cat" |} ].

Definition cat_spans : pdict record :=
  [ (VStr $"5", [ ($"xmi_id", VStr $"5"); ($"begin", VInt 4); ($"end", VInt 10);
                  ($"label", VStr $"Animal") ]);
    (VStr $"6", [ ($"xmi_id", VStr $"6"); ($"begin", VInt 20); ($"end", VInt 25);
                  ($"label", VStr $"Animal") ]) ].

(** *** Annotation lines *)

(** XML text, written with the apostrophe standing for the double quote. *)
Definition xml (s : string) : str :=
  map (fun c => if Ascii.eqb c "'" then dquote else c) (list_ascii_of_string s).

(** The record that the line loop builds from a line, if it accepts it. *)
Definition line_record (xmi_line : str) : option record :=
  match label_pattern xmi_line, xmi_id_pattern xmi_line,
        begin_pattern xmi_line, end_pattern xmi_line with
  | Some label, Some xmi_id, Some begin_, Some end_ =>
      match xmi2json.build_anno xmi_line xmi_id begin_ end_ label with
      | Ok r => Some r
      | Err _ => None
      end
  | _, _, _, _ => None
  end.

(** A non-empty run of digits. *)
Definition digits (s : str) : Prop := s <> [] /\ forallb isdigit s = true.

(** What every record of the mapping carries: a string identifier and
    label, and non-negative integer bounds. *)
Definition record_wf (r : record) : Prop :=
  (exists id, dict_get r $"xmi_id" = Some (VStr id)) /\
  (exists l, dict_get r $"label" = Some (VStr l)) /\
  (exists b, dict_get r $"begin" = Some (VInt b) /\ 0 <= b) /\
  (exists e, dict_get r $"end" = Some (VInt e) /\ 0 <= e).

(** The run of digits is within the limit of [int]. *)
Definition int_fits (s : str) : Prop := (length s <= int_max_str_digits)%nat.

(** All four probes find a match on the line. *)
Definition accepted (xmi_line : str) : Prop :=
  label_pattern xmi_line <> None /\ xmi_id_pattern xmi_line <> None /\
  begin_pattern xmi_line <> None /\ end_pattern xmi_line <> None.

(** What the begin and the end probe capture on the line is within the
    limit of [int]. *)
Definition runs_fit (xmi_line : str) : Prop :=
  (forall ds, begin_pattern xmi_line = Some ds -> int_fits ds) /\
  (forall ds, end_pattern xmi_line = Some ds -> int_fits ds).

(** The mapping built by the line loop: no key twice, and every record
    well formed and stored under its own identifier field. *)
Definition annos_inv (annos : pdict record) : Prop :=
  NoDup (map fst annos) /\
  Forall (fun kv => record_wf (snd kv) /\
                    dict_get (snd kv) $"xmi_id" = Some (fst kv)) annos.

(** A token element whose begin or end attribute is present and is not
    an integer for [int]. *)
Definition malformed_offset (el : element) : Prop :=
  (exists s, element_get el $"begin" = Some s /\ py_int s = None) \/
  (exists s, element_get el $"end" = Some s /\ py_int s = None).

(** A relation element that has lost its Dependent attribute. *)
Definition half_relation_line : str :=
  xml "<custom:Relation xmi:id='14' sofa='1' begin='9' end='12' Governor='12'/>".




(** A span whose begin lies after its end, and one whose begin is not a
    number. *)
Definition reversed_span_line : str :=
  xml "<custom:Span xmi:id='12' sofa='1' begin='9' end='3'/>".

Definition malformed_span_line : str :=
  xml "<custom:Span xmi:id='12' sofa='1' begin='x' end='5'/>".

Definition plain_span_line : str :=
  xml "<custom:Span xmi:id='12' sofa='1' begin='0' end='5' Role='agent'/>".

(** A document with one Token element, given by its two offsets. *)
Definition one_token_tree (b e : string) : xmi_tree :=
  {| sofa_element := Some {| attrib := [ ($"sofaString", paris_text) ] |};
     token_elements := [ {| attrib := [ ($"begin", $b); ($"end", $e) ] |} ] |}.


(** *** Captured attributes *)

(** The value of the last pair named [n] among the captured pairs. *)
Definition last_captured (attrs : list (str * str)) (n : str) : option str :=
  assoc_get str_eqb (rev attrs) n.

Definition is_reserved (n : str) : bool :=
  existsb (str_eqb n) xmi2json.reserved.

(** The record of an accepted line before the attribute loop. *)
Definition base_record (xmi_id : str) (b e : Z) (label : str) : record :=
  [ ($"xmi_id", VStr xmi_id); ($"begin", VInt b); ($"end", VInt e);
    ($"label", VStr label) ].

(** *** Tokens of the JSON path *)

(** [token_lookup.get(k)] *)
Definition odict_get {V} (d : odict V) (k : Z * Z) : option V :=
  assoc_get span_eqb d k.

(** The text that the token loop gives to the offsets [b] and [e]. *)
Definition normalized_slice (text : str) (b e : Z) : str :=
  collapse_ws (strip (slice text b e)).

(** [tidy_from prev s]: read after a whitespace character when [prev] is
    set, [s] has no whitespace character other than the blank, no blank
    next to another one or at its start, and does not end on a blank;
    [tidy s] moreover makes [s] non-empty. *)
Fixpoint tidy_from (prev_space : bool) (s : str) : bool :=
  match s with
  | [] => negb prev_space
  | c :: rest =>
      if isspace c then
        Ascii.eqb c " " && negb prev_space && tidy_from true rest
      else tidy_from false rest
  end.

Definition tidy (s : str) : bool := tidy_from true s.

(** The last character exists and is not whitespace. *)
Fixpoint ends_nonspace (s : str) : bool :=
  match s with
  | [] => false
  | c :: rest =>
      match rest with
      | [] => negb (isspace c)
      | _ :: _ => ends_nonspace rest
      end
  end.

(** What the token loop keeps true of its two results. *)
Definition tokens_inv (sofa_text : option str)
    (acc : list token * odict str) : Prop :=
  (forall t, In t (fst acc) ->
     exists text,
       sofa_text = Some text /\
       tok_token t = normalized_slice text (tok_begin t) (tok_end t) /\
       tok_token t <> []) /\
  (forall b e s, odict_get (snd acc) (b, e) = Some s ->
     exists t, In t (fst acc) /\ tok_begin t = b /\ tok_end t = e /\
               tok_token t = s) /\
  (forall t, In t (fst acc) ->
     odict_get (snd acc) (tok_begin t, tok_end t) = Some (tok_token t)).

(** A document whose only token spans blanks. *)
Definition spaced_tree : xmi_tree :=
  {| sofa_element := Some {| attrib := [ ($"sofaString", $" New   York ") ] |};
     token_elements := [ {| attrib := [ ($"begin", $"0"); ($"end", $"12") ] |} ] |}.

Definition spaced_token : token :=
  {| tok_xmi_id := None; tok_begin := 0; tok_end := 12;
     tok_token := $"New York" |}.

(** [token_from text el t]: [t] is the token that the loop builds from the
    element [el] over the document text [text]. *)
Definition token_from (text : str) (el : element) (t : token) : Prop :=
  int_ (element_get el $"begin") = Ok (tok_begin t) /\
  int_ (element_get el $"end") = Ok (tok_end t) /\
  tok_xmi_id t = element_get el $"xmi:id" /\
  tok_token t = normalized_slice text (tok_begin t) (tok_end t) /\
  tok_token t <> [].

(** Both offsets of the element are integers for [int]. *)
Definition integer_offsets (el : element) : Prop :=
  exists b e,
    int_ (element_get el $"begin") = Ok b /\
    int_ (element_get el $"end") = Ok e.

(** The record has the three fields that the tagger reads. *)
Definition has_span_keys (sp : record) : Prop :=
  dict_get sp $"label" <> None /\
  dict_get sp $"begin" <> None /\
  dict_get sp $"end" <> None.

(** *** The two conversions *)

(** An entity span after [map_tokens_to_spans]. *)
Definition mapped_span (tokens : list token) (sp : record) : record :=
  match span_bounds sp with
  | Some (b, e) => dict_set sp $"token" (VStr (derived_text tokens b e))
  | None => sp
  end.

(** What a side of a relationship of the file resolves to: the derived
    text of the entity span of the file that it names, UNKNOWN if it names
    none. *)
Definition side_text (tokens : list token) (ners : pdict record)
    (rel : record) (side : str) (out : pyval) : Prop :=
  exists ref,
    dict_get rel side = Some ref /\
    match pdict_get ners ref with
    | Some sp =>
        exists b e, span_bounds sp = Some (b, e) /\
                    out = VStr (derived_text tokens b e)
    | None => out = VStr UNKNOWN
    end.

(** A file with one token, one entity span over it and one relationship
    whose governor names no span. *)
Definition chase_content : str :=
  lines [ xml "<custom:Animal xmi:id='5' sofa='1' begin='0' end='5'/>";
          xml "<custom:Chases xmi:id='7' sofa='1' begin='0' end='5' Dependent='5' Governor='9'/>" ].

(* ================================================================= *)
(** * Properties *)

(** ** Equality tests *)

Lemma str_eqb_eq (a b : str) : str_eqb a b = true <-> a = b.
Proof.
  unfold str_eqb. destruct (list_eq_dec ascii_dec a b); split; congruence.
Qed.

Lemma str_eqb_refl (a : str) : str_eqb a a = true.
Proof. now apply str_eqb_eq. Qed.

Lemma str_eqb_neq (a b : str) : str_eqb a b = false <-> a <> b.
Proof.
  unfold str_eqb. destruct (list_eq_dec ascii_dec a b); split; congruence.
Qed.

Lemma pyval_eqb_eq (a b : pyval) : pyval_eqb a b = true <-> a = b.
Proof.
  destruct a, b; simpl; split; intro H; try congruence.
  - apply Z.eqb_eq in H. now subst.
  - inversion H. apply Z.eqb_refl.
  - apply str_eqb_eq in H. now subst.
  - inversion H. apply str_eqb_refl.
Qed.

(** ** Association lists *)

Section AssocFacts.
Context {K V : Type} (eqb : K -> K -> bool).
Hypothesis eqb_eq : forall a b, eqb a b = true <-> a = b.

Lemma eqb_same (a : K) : eqb a a = true.
Proof. now apply eqb_eq. Qed.

Lemma eqb_diff (a b : K) : a <> b -> eqb a b = false.
Proof.
  intro H. destruct (eqb a b) eqn:E; [|reflexivity].
  apply eqb_eq in E. contradiction.
Qed.

Lemma assoc_get_set_same (d : list (K * V)) k v :
  assoc_get eqb (assoc_set eqb d k v) k = Some v.
Proof.
  induction d as [|[k' v'] d IH]; simpl.
  - now rewrite eqb_same.
  - destruct (eqb k' k) eqn:E; simpl; rewrite E; auto.
Qed.

Lemma assoc_get_set_other (d : list (K * V)) k k' v :
  k <> k' -> assoc_get eqb (assoc_set eqb d k v) k' = assoc_get eqb d k'.
Proof.
  intro Hne. induction d as [|[k0 v0] d IH]; simpl.
  - now rewrite eqb_diff.
  - destruct (eqb k0 k) eqn:E; simpl.
    + apply eqb_eq in E. subst k0. now rewrite eqb_diff.
    + now rewrite IH.
Qed.

Lemma assoc_get_None_notin (d : list (K * V)) k :
  assoc_get eqb d k = None <-> ~ In k (map fst d).
Proof.
  induction d as [|[k0 v0] d IH]; simpl.
  - tauto.
  - destruct (eqb k0 k) eqn:E.
    + apply eqb_eq in E. subst. split; [discriminate | tauto].
    + rewrite IH. split; [|tauto].
      intros Hn [Heq | Hin]; [|tauto].
      subst. rewrite eqb_same in E. discriminate.
Qed.

Lemma assoc_get_In (d : list (K * V)) k v :
  assoc_get eqb d k = Some v -> In (k, v) d.
Proof.
  induction d as [|[k0 v0] d IH]; simpl; [discriminate|].
  destruct (eqb k0 k) eqn:E.
  - apply eqb_eq in E. intro H. inversion H. subst. now left.
  - auto.
Qed.


Lemma assoc_set_keys_In (d : list (K * V)) k v x :
  In x (map fst (assoc_set eqb d k v)) <-> x = k \/ In x (map fst d).
Proof.
  induction d as [|[k0 v0] d IH]; simpl.
  - intuition.
  - destruct (eqb k0 k) eqn:E; simpl.
    + apply eqb_eq in E. subst. intuition.
    + rewrite IH. intuition.
Qed.

Lemma assoc_set_NoDup (d : list (K * V)) k v :
  NoDup (map fst d) -> NoDup (map fst (assoc_set eqb d k v)).
Proof.
  induction d as [|[k0 v0] d IH]; simpl; intro Hnd.
  - constructor; [simpl; tauto | constructor].
  - inversion Hnd as [|? ? Hnot Hnd']. subst.
    destruct (eqb k0 k) eqn:E; simpl.
    + now constructor.
    + constructor; [|auto].
      rewrite assoc_set_keys_In. intros [Heq | Hin]; [|tauto].
      subst. rewrite eqb_same in E. discriminate.
Qed.

Lemma assoc_get_filter (p : V -> bool) (d : list (K * V)) k :
  NoDup (map fst d) ->
  assoc_get eqb (filter (fun kv => p (snd kv)) d) k =
  match assoc_get eqb d k with
  | Some v => if p v then Some v else None
  | None => None
  end.
Proof.
  induction d as [|[k0 v0] d IH]; simpl; [reflexivity|].
  intro Hnd. inversion Hnd as [|? ? Hnot Hnd']. subst.
  destruct (eqb k0 k) eqn:E.
  - apply eqb_eq in E. subst k0.
    destruct (p v0) eqn:P; simpl.
    + now rewrite eqb_same.
    + rewrite IH by assumption.
      apply assoc_get_None_notin in Hnot. now rewrite Hnot.
  - destruct (p v0); simpl; [rewrite E|]; auto.
Qed.

Lemma assoc_set_mem_preserved (d : list (K * V)) k v k' :
  assoc_get eqb d k' <> None -> assoc_get eqb (assoc_set eqb d k v) k' <> None.
Proof.
  intros H. rewrite assoc_get_None_notin in *.
  intro Hn. apply H. intro Hin. apply Hn.
  apply assoc_set_keys_In. now right.
Qed.
End AssocFacts.

(** ** Whitespace tokens and their offsets *)

Lemma is_prefix_app (tok rest : str) : is_prefix tok (tok ++ rest) = true.
Proof.
  induction tok as [|c tok IH]; simpl; [reflexivity|].
  now rewrite Ascii.eqb_refl.
Qed.

Lemma is_prefix_space (tok s : str) c :
  isspace c = true -> tok <> [] -> forallb notspace tok = true ->
  is_prefix tok (c :: s) = false.
Proof.
  intros Hc Hne Hall. destruct tok as [|a tok]; [congruence|].
  simpl in *. apply andb_true_iff in Hall. destruct Hall as [Ha _].
  destruct (Ascii.eqb a c) eqn:E; [|reflexivity].
  apply Ascii.eqb_eq in E. subst. unfold notspace in Ha.
  rewrite Hc in Ha. discriminate.
Qed.

Lemma find_from_eq (tok s : str) (i : nat) :
  find_from tok s i =
  if is_prefix tok s then Some i
  else match s with
       | [] => None
       | _ :: rest => find_from tok rest (S i)
       end.
Proof. destruct s; reflexivity. Qed.

Lemma find_from_after_spaces (ws tok rest : str) (i : nat) :
  forallb isspace ws = true -> tok <> [] -> forallb notspace tok = true ->
  find_from tok (ws ++ tok ++ rest) i = Some (i + length ws)%nat.
Proof.
  intros Hws Hne Htok. revert i.
  induction ws as [|c ws IH]; intro i.
  - rewrite find_from_eq. simpl app.
    rewrite is_prefix_app. f_equal. simpl. lia.
  - simpl in Hws. apply andb_true_iff in Hws. destruct Hws as [Hc Hws].
    rewrite find_from_eq. simpl app.
    rewrite is_prefix_space by assumption.
    rewrite IH by assumption. f_equal. simpl. lia.
Qed.

Lemma split_ws_nil (s : str) : split_ws s = [] -> forallb isspace s = true.
Proof.
  induction s as [|c s IH]; [reflexivity|].
  simpl. destruct (isspace c) eqn:Hc; simpl.
  - exact IH.
  - destruct s as [|d s']; [discriminate|].
    destruct (isspace d); [discriminate|].
    destruct (split_ws (d :: s')); discriminate.
Qed.

(** The first piece of [s.split()] and what is left after it. *)
Lemma split_ws_cons (s tok : str) (toks : list str) :
  split_ws s = tok :: toks ->
  exists ws rest,
    s = ws ++ tok ++ rest /\
    forallb isspace ws = true /\
    tok <> [] /\ forallb notspace tok = true /\
    split_ws rest = toks.
Proof.
  revert tok toks.
  induction s as [|c s IH]; intros tok toks H; [discriminate|].
  simpl in H. destruct (isspace c) eqn:Hc.
  - destruct (IH _ _ H) as (ws & rest & -> & Hws & Hne & Htok & Hrest).
    exists (c :: ws), rest. simpl. rewrite Hc. auto.
  - destruct s as [|d s'].
    + inversion H. subst. exists [], []. simpl. unfold notspace.
      rewrite Hc. repeat split; auto. discriminate.
    + destruct (isspace d) eqn:Hd.
      * inversion H. subst. exists [], (d :: s'). simpl. unfold notspace.
        rewrite Hc. repeat split; auto. discriminate.
      * destruct (split_ws (d :: s')) as [|w ws0] eqn:Hs.
        { apply split_ws_nil in Hs. simpl in Hs. rewrite Hd in Hs.
          discriminate. }
        inversion H. subst.
        destruct (IH _ _ eq_refl) as (ws & rest & Heq & Hws & Hne & Htok & Hrest).
        destruct ws as [|x ws].
        -- exists [], rest. simpl in *. rewrite Heq. unfold notspace at 1.
           rewrite Hc. repeat split; auto. discriminate.
        -- simpl in Heq. inversion Heq. subst x.
           simpl in Hws. rewrite Hd in Hws. discriminate.
Qed.

Lemma len_app (a b : str) : len (a ++ b) = len a + len b.
Proof. unfold len. rewrite length_app. lia. Qed.

Lemma len_nonneg (a : str) : 0 <= len a.
Proof. unfold len. lia. Qed.

Lemma clamp_index_inside (n i : Z) : 0 <= i <= n -> clamp_index n i = i.
Proof.
  intro H. unfold clamp_index.
  destruct (i <? 0) eqn:E1; [apply Z.ltb_lt in E1; lia|].
  rewrite E1. destruct (n <? i) eqn:E2; [apply Z.ltb_lt in E2; lia|].
  reflexivity.
Qed.

Lemma slice_middle (a b c : str) :
  slice (a ++ b ++ c) (len a) (len a + len b) = b.
Proof.
  unfold slice.
  rewrite !clamp_index_inside
    by (rewrite !len_app; generalize (len_nonneg a) (len_nonneg b) (len_nonneg c); lia).
  unfold len. rewrite <- Nat2Z.inj_add, !Nat2Z.id.
  rewrite skipn_app, skipn_all, Nat.sub_diag. simpl.
  replace (length a + length b - length a)%nat with (length b) by lia.
  rewrite firstn_app, firstn_all, Nat.sub_diag. simpl. apply app_nil_r.
Qed.

Lemma find_at_cursor (pre ws tok rest : str) :
  forallb isspace ws = true -> tok <> [] -> forallb notspace tok = true ->
  find (pre ++ ws ++ tok ++ rest) tok (len pre) = len pre + len ws.
Proof.
  intros Hws Hne Htok. unfold find.
  generalize (len_nonneg pre). intro Hp.
  destruct (len pre <? 0) eqn:E; [apply Z.ltb_lt in E; lia|].
  destruct (len (pre ++ ws ++ tok ++ rest) <? len pre) eqn:E2.
  { apply Z.ltb_lt in E2. rewrite len_app in E2.
    generalize (len_nonneg (ws ++ tok ++ rest)). lia. }
  unfold len at 1 2. rewrite Nat2Z.id.
  rewrite skipn_app, skipn_all, Nat.sub_diag. simpl.
  rewrite find_from_after_spaces by assumption.
  unfold len. lia.
Qed.

Lemma build_token_data_located (toks : list str) :
  forall pre s,
    split_ws s = toks ->
    located (pre ++ s) (len pre)
      (xmi2conll.build_token_data (pre ++ s) toks (len pre)).
Proof.
  induction toks as [|tok toks IH]; intros pre s Hs; simpl.
  - constructor.
  - destruct (split_ws_cons _ _ _ Hs) as (ws & rest & -> & Hws & Hne & Htok & Hrest).
    rewrite find_at_cursor by assumption.
    generalize (len_nonneg pre) (len_nonneg ws) (len_nonneg tok) (len_nonneg rest).
    intros.
    constructor; auto.
    + lia.
    + rewrite !len_app. lia.
    + replace (pre ++ ws ++ tok ++ rest) with ((pre ++ ws) ++ tok ++ rest)
        by now rewrite <- app_assoc.
      rewrite <- len_app. apply slice_middle.
    + rewrite slice_middle. exact Hws.
    + specialize (IH (pre ++ ws ++ tok) rest Hrest).
      replace (len pre + len ws + len tok) with (len (pre ++ ws ++ tok))
        by (rewrite !len_app; lia).
      replace (pre ++ ws ++ tok ++ rest) with ((pre ++ ws ++ tok) ++ rest)
        by now rewrite <- !app_assoc.
      exact IH.
Qed.

Lemma tokenize_located (text : str) : located text 0 (xmi2conll.tokenize text).
Proof.
  exact (build_token_data_located (split_ws text) [] text eq_refl).
Qed.

Lemma located_nth (text : str) cur data :
  located text cur data ->
  forall i t,
    nth_error data i = Some t ->
    0 <= cursor_before cur data i <= td_start t /\
    td_token t <> [] /\
    td_end t = td_start t + len (td_token t) /\
    td_end t <= len text /\
    slice text (td_start t) (td_end t) = td_token t /\
    forallb isspace (slice text (cursor_before cur data i) (td_start t)) = true.
Proof.
  induction 1 as [cur | cur tok st en rest Hcur Hne Hns Hen Hle Hsl Hgap Hrest IH];
    intros i t Hnth.
  - destruct i; discriminate.
  - destruct i as [|i]; simpl in Hnth.
    + inversion Hnth. subst t. unfold td_start, td_end, td_token. simpl.
      repeat split; auto; lia.
    + destruct (IH i t Hnth) as (Hc & H2 & H3 & H4 & H5 & H6).
      assert (Hcb : cursor_before cur ((tok, st, en) :: rest) (S i)
                    = cursor_before en rest i).
      { destruct i as [|i]; [reflexivity|].
        unfold cursor_before. simpl nth_error.
        destruct (nth_error rest i) eqn:E; [reflexivity|].
        apply nth_error_None in E.
        assert (Hn : nth_error rest (S i) = None) by (apply nth_error_None; lia).
        rewrite Hn in Hnth. discriminate. }
      rewrite Hcb. repeat split; auto; lia.
Qed.

Lemma tokenize_tokens (text : str) :
  map td_token (xmi2conll.tokenize text) = split_ws text.
Proof.
  unfold xmi2conll.tokenize. generalize 0.
  induction (split_ws text) as [|tok toks IH]; intro cur; simpl; [reflexivity|].
  now rewrite IH.
Qed.

Lemma located_notspace (text : str) cur data :
  located text cur data ->
  Forall (fun t => forallb notspace (td_token t) = true) data.
Proof.
  induction 1; constructor; auto.
Qed.

(** C8.  The cursor search of [convert_to_conll] gives every piece of
    [text.split()] its own entry, in order, and no other entry.  The
    search for the [i]-th piece does not fail and does not land before
    its cursor (the end of the entry before, 0 for the first): the start
    is at or after the cursor, only whitespace lies between the cursor
    and the start, and the piece itself has no whitespace, so the
    occurrence found is the first word after the cursor, the piece's own.
    The slice [text[start:end]] of the document text is the piece. *)
Theorem tokenize_offsets_reproduce_tokens (text : str) (i : nat) (tok : str) :
  nth_error (split_ws text) i = Some tok ->
  map td_token (xmi2conll.tokenize text) = split_ws text /\
  exists start end_,
    nth_error (xmi2conll.tokenize text) i = Some (tok, start, end_) /\
    0 <= cursor_before 0 (xmi2conll.tokenize text) i <= start /\
    forallb isspace
      (slice text (cursor_before 0 (xmi2conll.tokenize text) i) start) = true /\
    tok <> [] /\
    forallb notspace tok = true /\
    end_ = start + len tok /\
    end_ <= len text /\
    slice text start end_ = tok.
Proof.
  intro Hpiece. split; [apply tokenize_tokens|].
  rewrite <- tokenize_tokens in Hpiece. rewrite nth_error_map in Hpiece.
  destruct (nth_error (xmi2conll.tokenize text) i) as [[[tok' start] end_]|]
    eqn:Hnth; [|discriminate].
  cbn [option_map] in Hpiece. unfold td_token in Hpiece.
  cbn [fst] in Hpiece. inversion Hpiece. subst tok'.
  exists start, end_. split; [reflexivity|].
  pose proof (tokenize_located text) as Hloc.
  destruct (located_nth _ _ _ Hloc i _ Hnth)
    as (Hc & Hne & He & Hle & Hsl & Hgap).
  pose proof (located_notspace _ _ _ Hloc) as Hns.
  rewrite Forall_forall in Hns. specialize (Hns _ (nth_error_In _ _ Hnth)).
  unfold td_token, td_start, td_end in *. cbn [fst snd] in *.
  repeat split; auto; lia.
Qed.

Lemma tokenize_offsets_reproduce_tokens_witness :
  nth_error (split_ws $"to be  or not to be") 4 = Some $"to" /\
  nth_error (xmi2conll.tokenize $"to be  or not to be") 4
    = Some ($"to", 14, 16) /\
  slice $"to be  or not to be" 14 16 = $"to".
Proof.
  assert (H : nth_error (split_ws $"to be  or not to be") 4 = Some $"to")
    by reflexivity.
  split; [exact H|].
  destruct (tokenize_offsets_reproduce_tokens $"to be  or not to be" 4 $"to" H)
    as (_ & start & end_ & Hnth & _ & _ & _ & _ & _ & _ & Hslice).
  assert (Heq : Some ($"to", start, end_) = Some ($"to", 14, 16)).
  { rewrite <- Hnth. reflexivity. }
  inversion Heq. subst start end_. split; [reflexivity | exact Hslice].
Defined.

(** ** BIO tagging *)

Lemma located_starts (text : str) cur data :
  located text cur data ->
  Forall (fun t => cur <= td_start t /\ td_start t < td_end t) data /\
  NoDup (map td_start data).
Proof.
  induction 1 as [cur | cur tok st en rest Hcur Hne Hns Hen Hle Hsl Hgap Hrest IH].
  - split; constructor.
  - destruct IH as [Hall Hnd].
    assert (Hlen : 0 < len tok).
    { destruct tok; [congruence|]. unfold len. simpl. lia. }
    split.
    + constructor.
      * unfold td_start, td_end. simpl. lia.
      * eapply Forall_impl; [|exact Hall]. simpl. intros t [H1 H2]. lia.
    + simpl. constructor; [|exact Hnd].
      intro Hin. apply in_map_iff in Hin. destruct Hin as (t & Heq & Hin).
      rewrite Forall_forall in Hall. specialize (Hall t Hin).
      unfold td_start in *. simpl in *. lia.
Qed.

Lemma for_each_pure {A S} (body : S -> A -> result S) (f : S -> A -> S) xs :
  (forall acc x, In x xs -> body acc x = Ok (f acc x)) ->
  forall acc, for_each body xs acc = Ok (fold_left f xs acc).
Proof.
  induction xs as [|x xs IH]; intros Hb acc; simpl; [reflexivity|].
  rewrite Hb by now left. simpl. apply IH. intros. apply Hb. now right.
Qed.

Lemma for_each_app {A S} (body : S -> A -> result S) xs ys acc :
  for_each body (xs ++ ys) acc =
  bind (for_each body xs acc) (for_each body ys).
Proof.
  revert acc. induction xs as [|x xs IH]; intro acc; simpl; [reflexivity|].
  destruct (body acc x); simpl; auto.
Qed.

Lemma for_each_inv {A S} (I : S -> Prop) (body : S -> A -> result S) xs :
  (forall acc x acc', I acc -> body acc x = Ok acc' -> I acc') ->
  forall acc r, I acc -> for_each body xs acc = Ok r -> I r.
Proof.
  intro Hstep. induction xs as [|x xs IH]; intros acc r Hacc Hrun;
    cbn [for_each] in Hrun.
  - inversion Hrun. now subst.
  - destruct (body acc x) as [acc'|] eqn:Hb; cbn [bind] in Hrun;
      [|discriminate].
    eapply IH; [|exact Hrun]. eapply Hstep; eauto.
Qed.

Lemma tag_token_pure l b e acc t :
  xmi2conll.tag_token l (VInt b) (VInt e) acc t = Ok (tag_step l b e acc t).
Proof.
  unfold xmi2conll.tag_token, tag_step, fitsb. destruct acc as [L ins]. simpl.
  destruct (b <=? td_start t); simpl; [|reflexivity].
  destruct (td_end t <=? e); simpl; [|reflexivity].
  destruct ins; reflexivity.
Qed.

Lemma tag_fold_other l b e data :
  forall L ins k,
    ~ In k (map td_start data) ->
    zdict_get (fst (fold_left (tag_step l b e) data (L, ins))) k = zdict_get L k.
Proof.
  induction data as [|t0 data IH]; intros L ins k Hk; simpl; [reflexivity|].
  simpl in Hk. unfold tag_step at 2. destruct (fitsb b e t0); simpl.
  - rewrite IH by tauto. unfold zdict_get, zdict_set.
    apply (assoc_get_set_other Z.eqb Z.eqb_eq). tauto.
  - apply IH. tauto.
Qed.

Lemma tag_fold_lookup l b e data :
  forall L ins i t,
    NoDup (map td_start data) ->
    nth_error data i = Some t ->
    zdict_get (fst (fold_left (tag_step l b e) data (L, ins))) (td_start t) =
    if fitsb b e t then
      Some ((if ins || existsb (fitsb b e) (firstn i data) then $"I-" else $"B-")
              ++ py_str l)
    else zdict_get L (td_start t).
Proof.
  induction data as [|t0 data IH]; intros L ins i t Hnd Hnth.
  - destruct i; discriminate.
  - simpl in Hnd. inversion Hnd as [|? ? Hnot Hnd']. subst.
    destruct i as [|i]; simpl in Hnth.
    + inversion Hnth. subst t0. simpl fold_left.
      destruct (tag_step l b e (L, ins) t) as [L' ins'] eqn:Hstep.
      rewrite tag_fold_other by assumption.
      unfold tag_step in Hstep. simpl firstn. simpl existsb.
      rewrite orb_false_r.
      destruct (fitsb b e t); inversion Hstep; subst; simpl; [|reflexivity].
      apply (assoc_get_set_same Z.eqb Z.eqb_eq).
    + simpl fold_left.
      destruct (tag_step l b e (L, ins) t0) as [L' ins'] eqn:Hstep.
      rewrite (IH L' ins' i t Hnd' Hnth).
      assert (Hne : td_start t0 <> td_start t).
      { intro Heq. apply Hnot. rewrite Heq. apply in_map.
        eapply nth_error_In; eauto. }
      unfold tag_step in Hstep. simpl firstn. simpl existsb.
      destruct (fitsb b e t0); inversion Hstep; subst; simpl.
      * rewrite orb_true_r.
        destruct (fitsb b e t); [reflexivity|].
        apply (assoc_get_set_other Z.eqb Z.eqb_eq). exact Hne.
      * reflexivity.
Qed.

Lemma span_view_fields (sp : record) l b e :
  span_view sp = Some (l, b, e) ->
  dict_get sp $"label" = Some l /\
  dict_get sp $"begin" = Some (VInt b) /\
  dict_get sp $"end" = Some (VInt e).
Proof.
  unfold span_view.
  destruct (dict_get sp $"label") as [l'|]; [|discriminate].
  destruct (dict_get sp $"begin") as [[b'|]|]; try discriminate.
  destruct (dict_get sp $"end") as [[e'|]|]; try discriminate.
  intro H. inversion H. auto.
Qed.

(** On a token whose start is not after its end, the test of the code and
    the containment of both offsets agree. *)
Lemma fitsb_contains (sp : record) l b e t :
  span_view sp = Some (l, b, e) ->
  td_start t < td_end t ->
  fitsb b e t = span_containsb sp t.
Proof.
  intros Hv Hlt. unfold span_containsb, fitsb, withinb. rewrite Hv.
  destruct (b <=? td_start t) eqn:E1; destruct (td_end t <=? e) eqn:E2;
    destruct (td_start t <=? e) eqn:E3; destruct (b <=? td_end t) eqn:E4;
    simpl; try reflexivity;
    rewrite ?Z.leb_le, ?Z.leb_gt in *; lia.
Qed.

Lemma existsb_fitsb_contains (sp : record) l b e data :
  span_view sp = Some (l, b, e) ->
  Forall (fun t => td_start t < td_end t) data ->
  existsb (fitsb b e) data = existsb (span_containsb sp) data.
Proof.
  intros Hv. induction 1 as [|t data Ht Hall IH]; simpl; [reflexivity|].
  now rewrite IH, (fitsb_contains sp l b e t).
Qed.

Lemma Forall_firstn {A} (P : A -> Prop) (l : list A) n :
  Forall P l -> Forall P (firstn n l).
Proof.
  intro H. revert n. induction H; intros [|n]; simpl; constructor; auto.
Qed.

(** One pass of the span loop. *)
Lemma tag_span_lookup (data : list token_datum) (L : zdict str) (sp : record) :
  span_view sp <> None ->
  Forall (fun t => td_start t < td_end t) data ->
  NoDup (map td_start data) ->
  exists L',
    xmi2conll.tag_span data L sp = Ok L' /\
    (forall k, zdict_get L k <> None -> zdict_get L' k <> None) /\
    forall i t,
      nth_error data i = Some t ->
      zdict_get L' (td_start t) =
      if span_containsb sp t then Some (bio_tag sp (firstn i data))
      else zdict_get L (td_start t).
Proof.
  intros Hv Hlt Hnd.
  destruct (span_view sp) as [[[l b] e]|] eqn:Hsv; [clear Hv | congruence].
  destruct (span_view_fields _ _ _ _ Hsv) as (Hl & Hb & He).
  unfold xmi2conll.tag_span, dict_item. rewrite Hl, Hb, He. simpl.
  rewrite (for_each_pure _ (tag_step l b e))
    by (intros; apply tag_token_pure).
  simpl. eexists. split; [reflexivity|]. split.
  - intros k Hk. clear Hnd Hlt. revert L Hk. generalize false.
    induction data as [|t0 data IH]; intros ins L Hk; simpl; [exact Hk|].
    unfold tag_step at 2. destruct (fitsb b e t0); simpl; [|auto].
    apply IH. apply (assoc_set_mem_preserved Z.eqb Z.eqb_eq). exact Hk.
  - intros i t Hnth.
    rewrite (tag_fold_lookup l b e data L false i t Hnd Hnth). simpl.
    assert (Ht : td_start t < td_end t).
    { rewrite Forall_forall in Hlt. apply Hlt. eapply nth_error_In; eauto. }
    rewrite (fitsb_contains sp l b e t Hsv Ht).
    rewrite (existsb_fitsb_contains sp l b e _ Hsv (Forall_firstn _ _ i Hlt)).
    unfold bio_tag. rewrite Hsv. reflexivity.
Qed.

(** All passes, in the order of the spans. *)
Lemma tag_spans_lookup (data : list token_datum) :
  Forall (fun t => td_start t < td_end t) data ->
  NoDup (map td_start data) ->
  forall (sps : list record) (L : zdict str),
    (forall sp, In sp sps -> span_view sp <> None) ->
    exists L',
      for_each (xmi2conll.tag_span data) sps L = Ok L' /\
      (forall k, zdict_get L k <> None -> zdict_get L' k <> None) /\
      forall i t,
        nth_error data i = Some t ->
        ((forall sp, In sp sps -> span_containsb sp t = false) ->
         zdict_get L' (td_start t) = zdict_get L (td_start t)) /\
        (forall pre sp post,
            sps = pre ++ sp :: post ->
            span_containsb sp t = true ->
            (forall sp', In sp' post -> span_containsb sp' t = false) ->
            zdict_get L' (td_start t) = Some (bio_tag sp (firstn i data))).
Proof.
  intros Hlt Hnd sps.
  induction sps as [|sp0 sps IH]; intros L Hwf.
  - exists L. simpl. split; [reflexivity|]. split; [auto|].
    intros i t Hnth. split; [reflexivity|].
    intros pre sp post Heq. destruct pre; discriminate.
  - destruct (tag_span_lookup data L sp0 (Hwf sp0 (or_introl eq_refl)) Hlt Hnd)
      as (L1 & Hrun1 & Hdef1 & Hlook1).
    destruct (IH L1 (fun sp H => Hwf sp (or_intror H)))
      as (L' & Hrun & Hdef & Hlook).
    exists L'. simpl. rewrite Hrun1. simpl. split; [exact Hrun|].
    split; [auto|].
    intros i t Hnth. destruct (Hlook i t Hnth) as [Hnone Hlast].
    specialize (Hlook1 i t Hnth). split.
    + intro Hno. rewrite Hnone by (intros; apply Hno; now right).
      rewrite Hlook1, (Hno sp0) by now left. reflexivity.
    + intros pre sp post Heq Hc Hpost.
      destruct pre as [|p pre]; simpl in Heq; inversion Heq; subst.
      * rewrite Hnone by assumption. rewrite Hlook1, Hc. reflexivity.
      * eapply Hlast; eauto.
Qed.

Lemma init_labels_lookup (data : list token_datum) (t : token_datum) :
  In t data ->
  zdict_get (xmi2conll.init_labels data) (td_start t) = Some $"O".
Proof.
  unfold xmi2conll.init_labels. generalize (@nil (Z * str)).
  assert (Hgen : forall data k (L : zdict str),
    (In k (map td_start data) \/ zdict_get L k = Some $"O") ->
    zdict_get (fold_left (fun d t0 => zdict_set d (td_start t0) $"O") data L) k
    = Some $"O").
  { clear. induction data as [|t0 data IH]; intros k L H; simpl.
    - destruct H as [[]|H]. exact H.
    - apply IH. destruct (in_dec Z.eq_dec k (map td_start data)) as [Hin|Hout];
        [now left | right].
      destruct (Z.eq_dec (td_start t0) k) as [Heq|Hne].
      + subst. apply (assoc_get_set_same Z.eqb Z.eqb_eq).
      + unfold zdict_get, zdict_set.
        rewrite (assoc_get_set_other Z.eqb Z.eqb_eq) by assumption.
        destruct H as [[H|H]|H]; [contradiction | contradiction | exact H]. }
  intros L Hin. apply Hgen. left. now apply in_map.
Qed.

Lemma label_rows_ok (L : zdict str) (data : list token_datum) :
  (forall t, In t data -> zdict_get L (td_start t) <> None) ->
  exists rows,
    map_r (xmi2conll.label_row L) data = Ok rows /\
    map fst rows = data /\
    forall r, In r rows -> zdict_get L (td_start (fst r)) = Some (snd r).
Proof.
  induction data as [|t data IH]; intro Hdef.
  - exists []. simpl. repeat split; auto. intros ? [].
  - destruct IH as (rows & Hrun & Hfst & Hlab).
    { intros. apply Hdef. now right. }
    destruct (zdict_get L (td_start t)) as [lab|] eqn:E.
    2:{ exfalso. apply (Hdef t); [now left | exact E]. }
    exists ((t, lab) :: rows). simpl. unfold xmi2conll.label_row at 1.
    rewrite E, Hrun. simpl. repeat split; [now rewrite Hfst|].
    intros r [<- | Hin]; [exact E | auto].
Qed.

(** C6.  Tagging in [convert_to_conll], for spans that carry a label and
    integer bounds.  Every token starts with the label O.  One pass for a
    span gives each token whose start and end both lie within the span's
    bounds the tag B-label if no token before it is contained in the span
    and I-label otherwise, and leaves the label of every other token as it
    was.  In the output a token contained in no span has the label O, and a
    token contained in some span carries the tag given by the last span, in
    iteration order, that contains it: later passes overwrite earlier
    ones. *)
Theorem bio_tagging (text : str) (ners_spans : pdict record) :
  (forall sp, In sp (map snd ners_spans) -> span_view sp <> None) ->
  (forall t, In t (xmi2conll.tokenize text) ->
     zdict_get (xmi2conll.init_labels (xmi2conll.tokenize text)) (td_start t)
     = Some $"O") /\
  (forall sp L, In sp (map snd ners_spans) ->
     exists L',
       xmi2conll.tag_span (xmi2conll.tokenize text) L sp = Ok L' /\
       forall i t,
         nth_error (xmi2conll.tokenize text) i = Some t ->
         zdict_get L' (td_start t) =
         if span_containsb sp t
         then Some (bio_tag sp (firstn i (xmi2conll.tokenize text)))
         else zdict_get L (td_start t)) /\
  exists rows,
    xmi2conll.conll_rows text ners_spans = Ok rows /\
    map fst rows = xmi2conll.tokenize text /\
    forall i t lab,
      nth_error rows i = Some (t, lab) ->
      ((forall sp, In sp (map snd ners_spans) -> span_containsb sp t = false) ->
       lab = $"O") /\
      (forall pre sp post,
          map snd ners_spans = pre ++ sp :: post ->
          span_containsb sp t = true ->
          (forall sp', In sp' post -> span_containsb sp' t = false) ->
          lab = bio_tag sp (firstn i (xmi2conll.tokenize text))).
Proof.
  intro Hwf.
  destruct (located_starts _ _ _ (tokenize_located text)) as [Hall Hnd].
  assert (Hlt : Forall (fun t => td_start t < td_end t) (xmi2conll.tokenize text)).
  { eapply Forall_impl; [|exact Hall]. simpl. tauto. }
  split; [intros; now apply init_labels_lookup|].
  split.
  - intros sp L Hin.
    destruct (tag_span_lookup _ L sp (Hwf sp Hin) Hlt Hnd) as (L' & Hrun & _ & Hlook).
    exists L'. auto.
  - destruct (tag_spans_lookup _ Hlt Hnd (map snd ners_spans)
                (xmi2conll.init_labels (xmi2conll.tokenize text)) Hwf)
      as (L' & Hrun & Hdef & Hlook).
    destruct (label_rows_ok L' (xmi2conll.tokenize text)) as (rows & Hrows & Hfst & Hlab).
    { intros t Hin. apply Hdef. rewrite init_labels_lookup by assumption.
      discriminate. }
    exists rows. unfold xmi2conll.conll_rows, xmi2conll.assign_labels.
    rewrite Hrun. simpl. split; [exact Hrows|]. split; [exact Hfst|].
    intros i t lab Hnth.
    assert (Hdata : nth_error (xmi2conll.tokenize text) i = Some t).
    { rewrite <- Hfst. apply (map_nth_error fst) in Hnth. exact Hnth. }
    assert (Hget : zdict_get L' (td_start t) = Some lab).
    { apply (Hlab (t, lab)). eapply nth_error_In; eauto. }
    destruct (Hlook i t Hdata) as [Hnone Hlast]. split.
    + intro Hno. rewrite Hnone in Hget by assumption.
      rewrite init_labels_lookup in Hget by (eapply nth_error_In; eauto).
      now inversion Hget.
    + intros pre sp post Heq Hc Hpost.
      rewrite (Hlast pre sp post Heq Hc Hpost) in Hget. now inversion Hget.
Qed.

Lemma bio_tagging_witness :
  (forall sp, In sp (map snd overlap_spans) -> span_view sp <> None) /\
  xmi2conll.conll_rows overlap_text overlap_spans =
  Ok [ (($"New", 0, 3), $"B-LOC"); (($"York", 4, 8), $"B-ORG");
       (($"City", 9, 13), $"I-ORG"); (($"hall", 14, 18), $"I-ORG") ].
Proof.
  assert (H : forall sp, In sp (map snd overlap_spans) -> span_view sp <> None).
  { intros sp [<- | [<- | []]]; discriminate. }
  split; [exact H|].
  destruct (bio_tagging overlap_text overlap_spans H) as (_ & _ & rows & Hrows & _).
  vm_compute. reflexivity.
Defined.

(** ** The Paris scenario *)

Lemma paris_scenario_counterexample :
  xmi2conll.convert_to_conll (fun _ => Ok paris_tree) []
    [ (VStr $"1", loc_span 0 5); (VStr $"2", loc_span 27 33) ]
  = Ok (lines [ $"Paris 0 5 B-LOC"; $"is 6 8 O"; $"the 9 12 O";
                $"capital 13 20 O"; $"of 21 23 O"; $"France 24 30 O";
                $". 31 32 B-LOC" ]).
Proof. vm_compute. reflexivity. Qed.

(** C4 (amended).  In "Paris is the capital of France ." the token France
    occupies the offsets 24 to 30.  With the spans 0..5 and 24..30, both
    labelled LOC, [convert_to_conll] tags Paris and France B-LOC and every
    other token O.  With the second span at 27..33 the token France,
    which starts before the span, keeps O and the final token "." at
    31..32 is tagged B-LOC. *)
Theorem paris_scenario (ET : str -> result xmi_tree) (xmi_content : str)
    (root : xmi_tree) (k1 k2 : pyval) :
  ET xmi_content = Ok root ->
  xmi2json.sofa_string root = Some paris_text ->
  xmi2conll.convert_to_conll ET xmi_content
    [ (k1, loc_span 0 5); (k2, loc_span 24 30) ]
  = Ok (lines [ $"Paris 0 5 B-LOC"; $"is 6 8 O"; $"the 9 12 O";
                $"capital 13 20 O"; $"of 21 23 O"; $"France 24 30 B-LOC";
                $". 31 32 O" ]) /\
  xmi2conll.convert_to_conll ET xmi_content
    [ (k1, loc_span 0 5); (k2, loc_span 27 33) ]
  = Ok (lines [ $"Paris 0 5 B-LOC"; $"is 6 8 O"; $"the 9 12 O";
                $"capital 13 20 O"; $"of 21 23 O"; $"France 24 30 O";
                $". 31 32 B-LOC" ]).
Proof.
  intros Hparse Hsofa.
  unfold xmi2conll.convert_to_conll, xmi2conll.extract_sofa_string.
  rewrite Hparse. cbn [bind]. rewrite Hsofa. cbn [bind].
  split; vm_compute; reflexivity.
Qed.

Lemma paris_scenario_witness :
  xmi2conll.convert_to_conll (fun _ => Ok paris_tree) []
    [ (VStr $"1", loc_span 0 5); (VStr $"2", loc_span 24 30) ]
  = Ok (lines [ $"Paris 0 5 B-LOC"; $"is 6 8 O"; $"the 9 12 O";
                $"capital 13 20 O"; $"of 21 23 O"; $"France 24 30 B-LOC";
                $". 31 32 O" ]).
Proof.
  exact (proj1 (paris_scenario (fun _ => Ok paris_tree) [] paris_tree
                  (VStr $"1") (VStr $"2") eq_refl eq_refl)).
Defined.

(** ** Span previews *)

Lemma span_bounds_fields (sp : record) b e :
  span_bounds sp = Some (b, e) ->
  dict_get sp $"begin" = Some (VInt b) /\ dict_get sp $"end" = Some (VInt e).
Proof.
  unfold span_bounds.
  destruct (dict_get sp $"begin") as [[b'|]|]; try discriminate.
  destruct (dict_get sp $"end") as [[e'|]|]; try discriminate.
  intro H. inversion H. auto.
Qed.

Lemma starts_in_span_pure (sp : record) b e (t : token) :
  span_bounds sp = Some (b, e) ->
  xmi2json.starts_in_span sp t = Ok (withinb b e (tok_begin t)).
Proof.
  intro H. destruct (span_bounds_fields _ _ _ H) as [Hb He].
  unfold xmi2json.starts_in_span, dict_item, withinb. rewrite Hb, He.
  simpl. destruct (b <=? tok_begin t); reflexivity.
Qed.

Lemma filter_r_pure {A} (f : A -> result bool) (g : A -> bool) (l : list A) :
  (forall x, In x l -> f x = Ok (g x)) ->
  filter_r f l = Ok (filter g l).
Proof.
  induction l as [|x l IH]; intro H; simpl; [reflexivity|].
  rewrite H by now left. simpl. rewrite IH by (intros; apply H; now right).
  reflexivity.
Qed.

Lemma span_text_derived (tokens : list token) b e :
  xmi2json.span_text (tokens_starting_within tokens b e) = derived_text tokens b e.
Proof.
  unfold xmi2json.span_text, derived_text.
  destruct (tokens_starting_within tokens b e); reflexivity.
Qed.

Lemma map_span_pure (tokens : list token) k (sp : record) b e :
  span_bounds sp = Some (b, e) ->
  xmi2json.map_span tokens (k, sp) =
  Ok (k, dict_set sp $"token" (VStr (derived_text tokens b e))).
Proof.
  intro H. unfold xmi2json.map_span.
  rewrite (filter_r_pure _ (fun t => withinb b e (tok_begin t)))
    by (intros; now apply starts_in_span_pure).
  simpl. fold (tokens_starting_within tokens b e).
  now rewrite span_text_derived.
Qed.

Lemma withinb_spec (b e x : Z) : withinb b e x = true <-> b <= x <= e.
Proof. unfold withinb. rewrite andb_true_iff, !Z.leb_le. tauto. Qed.

Lemma map_r_nth {A B} (f : A -> result B) (l : list A) (l' : list B) :
  map_r f l = Ok l' ->
  length l' = length l /\
  forall i x, nth_error l i = Some x ->
    exists y, nth_error l' i = Some y /\ f x = Ok y.
Proof.
  revert l'. induction l as [|a l IH]; intros l' H; simpl in H.
  - inversion H. split; [reflexivity|]. intros [|i] x Hx; discriminate.
  - destruct (f a) as [y|] eqn:Hf; simpl in H; [|discriminate].
    destruct (map_r f l) as [ys|] eqn:Hm; simpl in H; [|discriminate].
    inversion H. subst. destruct (IH ys eq_refl) as [Hlen Hnth].
    split; [simpl; now rewrite Hlen|].
    intros [|i] x Hx; simpl in Hx.
    + inversion Hx. subst. exists y. auto.
    + apply Hnth. exact Hx.
Qed.

Lemma map_r_total {A B} (f : A -> result B) (l : list A) :
  (forall x, In x l -> exists y, f x = Ok y) ->
  exists l', map_r f l = Ok l'.
Proof.
  induction l as [|a l IH]; intro H; simpl.
  - eexists. reflexivity.
  - destruct (H a (or_introl eq_refl)) as [y Hy]. rewrite Hy. simpl.
    destruct IH as [ys Hys]; [intros; apply H; now right|].
    rewrite Hys. simpl. eexists. reflexivity.
Qed.

(** C7.  For entity spans with integer bounds, [map_tokens_to_spans] keeps
    the keys and their order and sets the token field of each span to the
    single-space join, in token order, of the text of exactly the tokens
    whose begin offset lies in the closed interval from the span's begin to
    its end (the end of the token is not looked at), and to UNKNOWN when no
    token begins in that interval; the other fields are unchanged. *)
Theorem map_tokens_to_spans_derived_text (tokens : list token)
    (token_lookup : odict str) (spans : pdict record) :
  (forall k sp, In (k, sp) spans -> span_bounds sp <> None) ->
  exists spans',
    xmi2json.map_tokens_to_spans tokens token_lookup spans = Ok spans' /\
    map fst spans' = map fst spans /\
    forall i k sp b e,
      nth_error spans i = Some (k, sp) ->
      span_bounds sp = Some (b, e) ->
      exists sp',
        nth_error spans' i = Some (k, sp') /\
        (tokens_starting_within tokens b e <> [] ->
         dict_get sp' $"token" =
         Some (VStr (join $" "
                       (map tok_token (tokens_starting_within tokens b e))))) /\
        ((forall t, In t tokens -> ~ (b <= tok_begin t <= e)) ->
         dict_get sp' $"token" = Some (VStr UNKNOWN)) /\
        (forall key, key <> $"token" -> dict_get sp' key = dict_get sp key).
Proof.
  intro Hwf. unfold xmi2json.map_tokens_to_spans.
  destruct (map_r_total (xmi2json.map_span tokens) spans) as [spans' Hrun].
  { intros [k sp] Hin. specialize (Hwf k sp Hin).
    destruct (span_bounds sp) as [[b e]|] eqn:Hb; [|congruence].
    rewrite (map_span_pure tokens k sp b e Hb). eexists. reflexivity. }
  exists spans'. split; [exact Hrun|].
  destruct (map_r_nth _ _ _ Hrun) as [Hlen Hnth].
  assert (Hpoint : forall i k sp b e,
             nth_error spans i = Some (k, sp) ->
             span_bounds sp = Some (b, e) ->
             nth_error spans' i =
             Some (k, dict_set sp $"token" (VStr (derived_text tokens b e)))).
  { intros i k sp b e Hi Hb. destruct (Hnth i _ Hi) as (y & Hy & Hf).
    rewrite (map_span_pure tokens k sp b e Hb) in Hf.
    inversion Hf. subst y. exact Hy. }
  split.
  - apply nth_error_ext. intro i. rewrite !nth_error_map.
    destruct (nth_error spans i) as [[k sp]|] eqn:Hi.
    + assert (Hin : In (k, sp) spans) by (eapply nth_error_In; eauto).
      specialize (Hwf k sp Hin).
      destruct (span_bounds sp) as [[b e]|] eqn:Hb; [|congruence].
      rewrite (Hpoint i k sp b e Hi Hb). reflexivity.
    + apply nth_error_None in Hi.
      assert (Hn : nth_error spans' i = None) by (apply nth_error_None; lia).
      now rewrite Hn.
  - intros i k sp b e Hi Hb. eexists. split; [exact (Hpoint i k sp b e Hi Hb)|].
    unfold dict_get, dict_set. split; [|split].
    + intro Hne. rewrite (assoc_get_set_same str_eqb str_eqb_eq).
      unfold derived_text.
      destruct (tokens_starting_within tokens b e); [congruence | reflexivity].
    + intro Hnone. rewrite (assoc_get_set_same str_eqb str_eqb_eq).
      unfold derived_text.
      destruct (tokens_starting_within tokens b e) as [|t ts] eqn:Hf;
        [reflexivity|].
      exfalso. assert (Hin : In t (tokens_starting_within tokens b e))
        by (rewrite Hf; now left).
      apply filter_In in Hin. destruct Hin as [Hin Hw].
      apply withinb_spec in Hw. exact (Hnone t Hin Hw).
    + intros key Hkey.
      apply (assoc_get_set_other str_eqb str_eqb_eq). congruence.
Qed.

Lemma map_tokens_to_spans_derived_text_witness :
  (forall k sp, In (k, sp) cat_spans -> span_bounds sp <> None) /\
  xmi2json.map_tokens_to_spans cat_tokens [] cat_spans =
  Ok [ (VStr $"5", [ ($"xmi_id", VStr $"5"); ($"begin", VInt 4); ($"end", VInt 10);
                     ($"label", VStr $"Animal"); ($"token", VStr $"black cat") ]);
       (VStr $"6", [ ($"xmi_id", VStr $"6"); ($"begin", VInt 20); ($"end", VInt 25);
                     ($"label", VStr $"Animal"); ($"token", VStr $"UNKNOWN") ]) ].
Proof.
  assert (H : forall k sp, In (k, sp) cat_spans -> span_bounds sp <> None).
  { intros k sp [Heq | [Heq | []]]; inversion Heq; subst; vm_compute; discriminate. }
  split; [exact H|].
  destruct (map_tokens_to_spans_derived_text cat_tokens [] cat_spans H)
    as (spans' & Hrun & _).
  vm_compute. reflexivity.
Defined.

(** ** Relationships *)

Lemma resolve_cases (ners : pdict record) (rel : record) (side : str) :
  side_resolves ners rel side (xmi2json.resolve ners rel side).
Proof.
  unfold side_resolves, xmi2json.resolve. repeat split.
  - intros ref span text Hr Hn Ht. now rewrite Hr, Hn, Ht.
  - intros ref span Hr Hn Ht. now rewrite Hr, Hn, Ht.
  - intros ref Hr Hn. now rewrite Hr, Hn.
  - intros Hr. now rewrite Hr.
Qed.

(** C9.  For relationship records that carry an identifier and a label,
    [map_relationships] raises nothing and gives one flattened record per
    relationship, in order, with the relationship's identifier and label;
    each side resolves on its own: to the token text of the entity span
    that its Dependent or Governor identifier names in the entity span
    mapping, and to UNKNOWN when the relationship has no such attribute,
    when the identifier is not in the mapping, or when the span has no
    token text. *)
Theorem map_relationships_resolves (relations ners : pdict record) :
  (forall k rel, In (k, rel) relations ->
     dict_get rel $"xmi_id" <> None /\ dict_get rel $"label" <> None) ->
  exists out,
    xmi2json.map_relationships relations ners = Ok out /\
    length out = length relations /\
    forall i k rel,
      nth_error relations i = Some (k, rel) ->
      exists r,
        nth_error out i = Some r /\
        dict_get rel $"xmi_id" = Some (rel_xmi_id r) /\
        dict_get rel $"label" = Some (rel_label r) /\
        side_resolves ners rel $"Dependent" (rel_dep r) /\
        side_resolves ners rel $"Governor" (rel_gov r).
Proof.
  intro Hwf. unfold xmi2json.map_relationships.
  assert (Hstep : forall k rel, In (k, rel) relations ->
            exists id lab,
              dict_get rel $"xmi_id" = Some id /\
              dict_get rel $"label" = Some lab /\
              xmi2json.map_relationship ners (k, rel) =
              Ok {| rel_xmi_id := id; rel_label := lab;
                    rel_dep := xmi2json.resolve ners rel $"Dependent";
                    rel_gov := xmi2json.resolve ners rel $"Governor" |}).
  { intros k rel Hin. destruct (Hwf k rel Hin) as [Hid Hlab].
    destruct (dict_get rel $"xmi_id") as [id|] eqn:Eid; [|congruence].
    destruct (dict_get rel $"label") as [lab|] eqn:Elab; [|congruence].
    exists id, lab. repeat split.
    unfold xmi2json.map_relationship, dict_item. cbn [snd].
    rewrite Eid, Elab. reflexivity. }
  destruct (map_r_total (xmi2json.map_relationship ners) relations) as [out Hrun].
  { intros [k rel] Hin. destruct (Hstep k rel Hin) as (id & lab & _ & _ & Hr).
    eexists. exact Hr. }
  exists out. split; [exact Hrun|].
  destruct (map_r_nth _ _ _ Hrun) as [Hlen Hnth].
  split; [exact Hlen|].
  intros i k rel Hi. destruct (Hnth i _ Hi) as (r & Hr & Hf).
  assert (Hin : In (k, rel) relations) by (eapply nth_error_In; eauto).
  destruct (Hstep k rel Hin) as (id & lab & Hid & Hlab & Hmap).
  rewrite Hmap in Hf. inversion Hf. subst r. exists
    {| rel_xmi_id := id; rel_label := lab;
       rel_dep := xmi2json.resolve ners rel $"Dependent";
       rel_gov := xmi2json.resolve ners rel $"Governor" |}.
  cbn [rel_xmi_id rel_label rel_dep rel_gov].
  repeat split; auto; apply resolve_cases.
Qed.

Lemma map_relationships_resolves_witness :
  (forall k rel, In (k, rel) cat_relations ->
     dict_get rel $"xmi_id" <> None /\ dict_get rel $"label" <> None) /\
  xmi2json.map_relationships cat_relations cat_ners =
  Ok [ {| rel_xmi_id := VStr $"7"; rel_label := VStr $"Chases";
          rel_dep := VStr $"cat"; rel_gov := VStr $"UNKNOWN" |} ].
Proof.
  assert (H : forall k rel, In (k, rel) cat_relations ->
     dict_get rel $"xmi_id" <> None /\ dict_get rel $"label" <> None).
  { intros k rel [Heq | []]; inversion Heq; subst; vm_compute;
      split; discriminate. }
  split; [exact H|].
  destruct (map_relationships_resolves cat_relations cat_ners H)
    as (out & Hrun & _).
  vm_compute. reflexivity.
Defined.

(** ** The line scanner *)

Lemma re_search_at {A} (at_pos : str -> option A) (s : str) (a : A) :
  re_search at_pos s = Some a ->
  exists pre suffix, s = pre ++ suffix /\ at_pos suffix = Some a.
Proof.
  induction s as [|c s IH]; simpl.
  - destruct (at_pos []) eqn:E; [|discriminate].
    intro H. inversion H. subst. exists [], []. auto.
  - destruct (at_pos (c :: s)) eqn:E.
    + intro H. inversion H. subst. exists [], (c :: s). auto.
    + intro H. destruct (IH H) as (pre & suf & -> & Hs).
      exists (c :: pre), suf. auto.
Qed.

Lemma takewhile_all {A} (f : A -> bool) (l : list A) :
  forallb f (takewhile f l) = true.
Proof.
  induction l as [|x l IH]; simpl; [reflexivity|].
  destruct (f x) eqn:E; simpl; [now rewrite E | reflexivity].
Qed.

Lemma quoted_digits_at_digits (lit s ds : str) :
  quoted_digits_at lit s = Some ds -> digits ds.
Proof.
  unfold quoted_digits_at.
  destruct (strip_prefix lit s) as [rest|]; [|discriminate].
  destruct (takewhile isdigit rest) as [|d ds'] eqn:E; [discriminate|].
  destruct (strip_prefix [dquote] (dropwhile isdigit rest)); [|discriminate].
  intro H. inversion H. subst. split; [discriminate|].
  rewrite <- E. apply takewhile_all.
Qed.

Lemma search_digits (lit s ds : str) :
  re_search (quoted_digits_at lit) s = Some ds -> digits ds.
Proof.
  intro H. destruct (re_search_at _ _ _ H) as (pre & suf & _ & Hs).
  eapply quoted_digits_at_digits; eauto.
Qed.

(** *** [int] of a run of digits *)

Lemma isdigit_range (c : ascii) :
  isdigit c = true -> (48 <= nat_of_ascii c <= 57)%nat.
Proof.
  unfold isdigit. rewrite andb_true_iff, !Nat.leb_le. tauto.
Qed.

Lemma isdigit_notspace (c : ascii) : isdigit c = true -> isspace c = false.
Proof.
  intro H. apply isdigit_range in H. unfold isspace.
  destruct (9 <=? nat_of_ascii c)%nat eqn:E1;
    destruct (nat_of_ascii c <=? 13)%nat eqn:E2;
    destruct (28 <=? nat_of_ascii c)%nat eqn:E3;
    destruct (nat_of_ascii c <=? 32)%nat eqn:E4; simpl; try reflexivity;
    rewrite ?Nat.leb_le, ?Nat.leb_gt in *; lia.
Qed.

Lemma isdigit_notsign (c : ascii) :
  isdigit c = true -> Ascii.eqb c "-" = false /\ Ascii.eqb c "+" = false.
Proof.
  intro H. apply isdigit_range in H.
  split; apply Ascii.eqb_neq; intro Heq; subst c.
  - change (nat_of_ascii "-") with 45%nat in H. lia.
  - change (nat_of_ascii "+") with 43%nat in H. lia.
Qed.

Lemma dropwhile_head {A} (f : A -> bool) (x : A) (l : list A) :
  f x = false -> dropwhile f (x :: l) = x :: l.
Proof. intro H. simpl. now rewrite H. Qed.

Lemma strip_digits (s : str) : forallb isdigit s = true -> strip s = s.
Proof.
  intro H. unfold strip.
  assert (Hd : forall l, forallb isdigit l = true -> dropwhile isspace l = l).
  { intros [|c l] Hl; [reflexivity|]. simpl in Hl.
    apply andb_true_iff in Hl. apply dropwhile_head.
    apply isdigit_notspace. tauto. }
  rewrite (Hd s H). rewrite Hd; [apply rev_involutive|].
  rewrite forallb_forall in *. intros c Hc. apply H. now apply in_rev.
Qed.

Lemma int_digits_run (s : str) :
  forallb isdigit s = true ->
  forall acc, 0 <= acc ->
    exists z, int_digits s acc true = Some z /\ 0 <= z.
Proof.
  induction s as [|c s IH]; intros Hs acc Hacc; cbn [int_digits].
  - exists acc. auto.
  - cbn [forallb] in Hs. apply andb_true_iff in Hs. destruct Hs as [Hc Hs].
    rewrite Hc. apply IH; [exact Hs|].
    apply isdigit_range in Hc. unfold digit_val. lia.
Qed.

Lemma count_digits_run (s : str) :
  forallb isdigit s = true -> count_digits s = length s.
Proof.
  unfold count_digits. induction s as [|c s IH]; [reflexivity|].
  cbn [forallb filter]. intro H. apply andb_true_iff in H.
  destruct H as [Hc Hs]. rewrite Hc. cbn [length]. now rewrite IH.
Qed.

Lemma int_fits_dec (s : str) : int_fits s \/ ~ int_fits s.
Proof. unfold int_fits. lia. Qed.

Lemma py_int_run (s : str) :
  digits s ->
  py_int s = if (int_max_str_digits <? length s)%nat then None
             else int_digits s 0 false.
Proof.
  intros [Hne Hs]. unfold py_int. rewrite (strip_digits s Hs).
  destruct s as [|c s]; [congruence|].
  pose proof Hs as Hall.
  cbn [forallb] in Hs. apply andb_true_iff in Hs. destruct Hs as [Hc Hs].
  destruct (isdigit_notsign c Hc) as [-> ->].
  unfold int_body. now rewrite (count_digits_run _ Hall).
Qed.

Lemma py_int_digits (s : str) :
  digits s -> int_fits s -> exists z, py_int s = Some z /\ 0 <= z.
Proof.
  intros Hd Hfit. rewrite (py_int_run s Hd). destruct Hd as [Hne Hs].
  destruct (Nat.ltb_spec int_max_str_digits (length s)) as [Hlt|_];
    [unfold int_fits in Hfit; lia|].
  destruct s as [|c s]; [congruence|].
  cbn [forallb] in Hs. apply andb_true_iff in Hs. destruct Hs as [Hc Hs].
  cbn [int_digits]. rewrite Hc.
  apply int_digits_run; [exact Hs|].
  apply isdigit_range in Hc. unfold digit_val. lia.
Qed.

Lemma py_int_overflow (s : str) :
  digits s -> ~ int_fits s -> py_int s = None.
Proof.
  intros Hd Hno. rewrite (py_int_run s Hd).
  destruct (Nat.ltb_spec int_max_str_digits (length s)) as [_|Hle];
    [reflexivity|].
  elim Hno. exact Hle.
Qed.

(** A run of digits that [int] converts is within the limit and gives a
    non-negative integer. *)
Lemma py_int_digits_inv (s : str) (z : Z) :
  digits s -> py_int s = Some z -> int_fits s /\ 0 <= z.
Proof.
  intros Hd Hz. destruct (int_fits_dec s) as [Hfit|Hno].
  - destruct (py_int_digits s Hd Hfit) as (z' & Hz' & H0).
    split; [exact Hfit | congruence].
  - rewrite (py_int_overflow s Hd Hno) in Hz. discriminate.
Qed.

(** *** The attribute loop *)

Lemma add_attribute_reserved (d : record) (a : str * str) (name : str) :
  In name xmi2json.reserved ->
  dict_get (xmi2json.add_attribute d a) name = dict_get d name.
Proof.
  intro Hin. destruct a as [n v]. unfold xmi2json.add_attribute.
  destruct (existsb (str_eqb n) xmi2json.reserved) eqn:E; [reflexivity|].
  apply (assoc_get_set_other str_eqb str_eqb_eq).
  intro Heq. subst n.
  assert (existsb (str_eqb name) xmi2json.reserved = true).
  { apply existsb_exists. exists name. split; [exact Hin | apply str_eqb_refl]. }
  congruence.
Qed.

Lemma fold_add_attribute_reserved (attrs : list (str * str)) (name : str) :
  In name xmi2json.reserved ->
  forall d, dict_get (fold_left xmi2json.add_attribute attrs d) name
            = dict_get d name.
Proof.
  intro Hin. induction attrs as [|a attrs IH]; intro d; simpl; [reflexivity|].
  now rewrite IH, add_attribute_reserved.
Qed.

Lemma add_attribute_vstr (d : record) (a : str * str) (k : str) :
  (exists s, dict_get d k = Some (VStr s)) ->
  exists s, dict_get (xmi2json.add_attribute d a) k = Some (VStr s).
Proof.
  intros [s Hs]. destruct a as [n v]. unfold xmi2json.add_attribute.
  destruct (existsb (str_eqb n) xmi2json.reserved); [eauto|].
  destruct (list_eq_dec ascii_dec n k) as [->|Hne].
  - exists v. apply (assoc_get_set_same str_eqb str_eqb_eq).
  - exists s. unfold dict_get, dict_set.
    rewrite (assoc_get_set_other str_eqb str_eqb_eq) by assumption. exact Hs.
Qed.

Lemma fold_add_attribute_vstr (attrs : list (str * str)) (k : str) :
  forall d,
    (exists s, dict_get d k = Some (VStr s)) ->
    exists s, dict_get (fold_left xmi2json.add_attribute attrs d) k
              = Some (VStr s).
Proof.
  induction attrs as [|a attrs IH]; intros d H; simpl; [exact H|].
  apply IH. now apply add_attribute_vstr.
Qed.

(** An attribute named [k] is needed to change the field [k]. *)
Lemma fold_add_attribute_absent (attrs : list (str * str)) (k : str) :
  ~ In k (map fst attrs) ->
  forall d, dict_get (fold_left xmi2json.add_attribute attrs d) k
            = dict_get d k.
Proof.
  induction attrs as [|[n v] attrs IH]; intros Hk d; cbn [fold_left];
    [reflexivity|].
  cbn [map fst In] in Hk. rewrite IH by tauto.
  unfold xmi2json.add_attribute.
  destruct (existsb (str_eqb n) xmi2json.reserved); [reflexivity|].
  apply (assoc_get_set_other str_eqb str_eqb_eq). tauto.
Qed.

Lemma build_anno_wf (xmi_line xmi_id begin_ end_ label : str) :
  digits begin_ -> digits end_ ->
  int_fits begin_ -> int_fits end_ ->
  exists r,
    xmi2json.build_anno xmi_line xmi_id begin_ end_ label = Ok r /\
    record_wf r /\
    (~ In $"xmi_id" (map fst (attribute_pattern xmi_line)) ->
     dict_get r $"xmi_id" = Some (VStr xmi_id)).
Proof.
  intros Hb He Hfb Hfe.
  destruct (py_int_digits _ Hb Hfb) as (b & Hpb & Hb0).
  destruct (py_int_digits _ He Hfe) as (e & Hpe & He0).
  unfold xmi2json.build_anno, int_. rewrite Hpb, Hpe. cbn [bind].
  eexists. split; [reflexivity|]. split; [repeat split|].
  - apply fold_add_attribute_vstr. exists xmi_id. reflexivity.
  - apply fold_add_attribute_vstr. exists label. reflexivity.
  - exists b. split; [|exact Hb0].
    rewrite fold_add_attribute_reserved; [reflexivity|].
    vm_compute. tauto.
  - exists e. split; [|exact He0].
    rewrite fold_add_attribute_reserved; [reflexivity|].
    vm_compute. tauto.
  - intro Hno. rewrite fold_add_attribute_absent by exact Hno. reflexivity.
Qed.

Lemma build_anno_overflow (xmi_line xmi_id begin_ end_ label : str) :
  digits begin_ -> digits end_ ->
  ~ int_fits begin_ \/ ~ int_fits end_ ->
  xmi2json.build_anno xmi_line xmi_id begin_ end_ label = Err ValueError.
Proof.
  intros Hb He Hover. unfold xmi2json.build_anno, int_.
  destruct (int_fits_dec begin_) as [Hfb|Hnb].
  - destruct (py_int_digits _ Hb Hfb) as (b & Hpb & _). rewrite Hpb.
    cbn [bind]. destruct Hover as [Hnb|Hne]; [contradiction|].
    now rewrite (py_int_overflow _ He Hne).
  - now rewrite (py_int_overflow _ Hb Hnb).
Qed.

(** *** The line loop *)

Lemma line_step_cases (annos : pdict record) (xmi_line : str) :
  (~ accepted xmi_line /\
   line_record xmi_line = None /\
   xmi2json.line_step annos xmi_line = Ok annos) \/
  (accepted xmi_line /\ runs_fit xmi_line /\
   exists r id,
      line_record xmi_line = Some r /\
      record_wf r /\
      dict_get r $"xmi_id" = Some (VStr id) /\
      xmi2json.line_step annos xmi_line = Ok (pdict_set annos (VStr id) r)) \/
  (accepted xmi_line /\ ~ runs_fit xmi_line /\
   line_record xmi_line = None /\
   xmi2json.line_step annos xmi_line = Err ValueError).
Proof.
  unfold line_record, xmi2json.line_step, accepted, runs_fit.
  destruct (label_pattern xmi_line) as [label|]; [|left; tauto].
  destruct (xmi_id_pattern xmi_line) as [xmi_id|]; [|left; tauto].
  destruct (begin_pattern xmi_line) as [b|] eqn:Hb; [|left; tauto].
  destruct (end_pattern xmi_line) as [e|] eqn:He; [|left; tauto].
  apply search_digits in Hb. apply search_digits in He.
  assert (Hacc : Some label <> None /\ Some xmi_id <> None /\
                 Some b <> None /\ Some e <> None)
    by (repeat split; discriminate).
  right.
  destruct (int_fits_dec b) as [Hfb|Hnb]; [destruct (int_fits_dec e) as [Hfe|Hne]|].
  - left. split; [exact Hacc|]. split.
    { split; intros ds H; inversion H; subst; assumption. }
    destruct (build_anno_wf xmi_line xmi_id b e label Hb He Hfb Hfe)
      as (r & Hr & Hwf & _).
    rewrite Hr. cbn [bind]. destruct Hwf as [[id Hid] Hrest].
    exists r, id. unfold dict_item. rewrite Hid. cbn [bind].
    split; [reflexivity|]. split; [|split; reflexivity].
    split; [exists id; exact Hid | exact Hrest].
  - right. split; [exact Hacc|]. split.
    { intros [_ H]. exact (Hne (H e eq_refl)). }
    rewrite build_anno_overflow by auto. cbn [bind]. auto.
  - right. split; [exact Hacc|]. split.
    { intros [H _]. exact (Hnb (H b eq_refl)). }
    rewrite build_anno_overflow by auto. cbn [bind]. auto.
Qed.

Lemma Forall_assoc_set {K V} (eqb : K -> K -> bool)
    (eqb_eq : forall a b, eqb a b = true <-> a = b)
    (P : K * V -> Prop) (d : list (K * V)) k v :
  P (k, v) -> Forall P d -> Forall P (assoc_set eqb d k v).
Proof.
  intros Hkv. induction 1 as [|[k0 v0] d H0 Hd IH]; simpl.
  - constructor; auto.
  - destruct (eqb k0 k) eqn:E.
    + apply eqb_eq in E. subst. constructor; auto.
    + constructor; auto.
Qed.

Lemma line_step_inv (annos annos' : pdict record) (xmi_line : str) :
  annos_inv annos ->
  xmi2json.line_step annos xmi_line = Ok annos' ->
  annos_inv annos'.
Proof.
  intros [Hnd Hall] Hrun.
  destruct (line_step_cases annos xmi_line)
    as [(_ & _ & Hstep) | [(_ & _ & r & id & _ & Hwf & Hid & Hstep)
                          | (_ & _ & _ & Hstep)]];
    rewrite Hstep in Hrun; inversion Hrun; subst annos'.
  - split; assumption.
  - split.
    + apply (assoc_set_NoDup pyval_eqb pyval_eqb_eq). exact Hnd.
    + apply (Forall_assoc_set pyval_eqb pyval_eqb_eq); auto.
Qed.

Lemma annos_inv_nil : annos_inv [].
Proof. split; constructor. Qed.

(** What the line loop returns, when it returns. *)
Lemma scan_annos_inv (xmi_content : str) (annos : pdict record) :
  xmi2json.scan_annos xmi_content = Ok annos -> annos_inv annos.
Proof.
  unfold xmi2json.scan_annos. intro Hrun.
  eapply (for_each_inv annos_inv); [| exact annos_inv_nil | exact Hrun].
  intros acc x acc' Hacc Hstep. eapply line_step_inv; eauto.
Qed.

(** The line loop raises exactly when an accepted line has a run of
    digits over the limit of [int]. *)
Lemma lines_fit (ls : list str) :
  (forall l, In l ls -> accepted l -> runs_fit l) ->
  forall annos, exists annos', for_each xmi2json.line_step ls annos = Ok annos'.
Proof.
  induction ls as [|l ls IH]; intros Hfit annos; cbn [for_each].
  - eauto.
  - destruct (line_step_cases annos l)
      as [(_ & _ & Hstep) | [(_ & _ & r & id & _ & _ & _ & Hstep)
                            | (Hacc & Hno & _)]].
    + rewrite Hstep. cbn [bind]. apply IH. intros. apply Hfit; auto. now right.
    + rewrite Hstep. cbn [bind]. apply IH. intros. apply Hfit; auto. now right.
    + elim Hno. apply Hfit; [now left | exact Hacc].
Qed.

Lemma lines_overflow (ls : list str) (l : str) :
  In l ls -> accepted l -> ~ runs_fit l ->
  forall annos, for_each xmi2json.line_step ls annos = Err ValueError.
Proof.
  intros Hin Hacc Hno. induction ls as [|l0 ls IH]; [destruct Hin|].
  intro annos. cbn [for_each].
  destruct (line_step_cases annos l0)
    as [(Hn0 & _ & Hstep) | [(_ & Hfit0 & r & id & _ & _ & _ & Hstep)
                            | (_ & _ & _ & Hstep)]];
    rewrite Hstep; cbn [bind]; [| |reflexivity];
    (destruct Hin as [-> | Hin]; [contradiction | now apply IH]).
Qed.



(** When [extract_custom_annos] returns, the line loop has returned the
    mapping that its two results are taken from. *)
Lemma extract_custom_annos_scan (xmi_content : str) (ners relations : pdict record) :
  xmi2json.extract_custom_annos xmi_content = Ok (ners, relations) ->
  exists annos,
    xmi2json.scan_annos xmi_content = Ok annos /\
    annos_inv annos /\
    ners = filter (fun kv => xmi2json.is_ner (snd kv)) annos /\
    relations = filter (fun kv => xmi2json.is_relation (snd kv)) annos.
Proof.
  unfold xmi2json.extract_custom_annos.
  destruct (xmi2json.scan_annos xmi_content) as [annos|] eqn:Hrun;
    cbn [bind]; [|discriminate].
  intro H. inversion H. exists annos.
  split; [reflexivity|]. split; [exact (scan_annos_inv _ _ Hrun)|]. auto.
Qed.

(** ** The partition into entity spans and relationships *)

Lemma custom_annos_partition_counterexample :
  xmi2json.scan_annos half_relation_line =
    Ok [ (VStr $"14",
          [ ($"xmi_id", VStr $"14"); ($"begin", VInt 9); ($"end", VInt 12);
            ($"label", VStr $"Relation"); ($"id", VStr $"14");
            ($"Governor", VStr $"12") ]) ] /\
  xmi2json.extract_custom_annos half_relation_line = Ok ([], []).
Proof. split; vm_compute; reflexivity. Qed.

(** C1 (amended).  Whenever [extract_custom_annos] returns, for every
    record of the mapping that its line loop has built: a record that
    carries both a Dependent and a Governor attribute is in the
    Relationship mapping and not in the Entity Span mapping; a record that
    carries neither is in the Entity Span mapping and not in the
    Relationship mapping; a record that carries exactly one of the two is
    in neither.  No record is in both, and both mappings hold records of
    the raw mapping only. *)
Theorem custom_annos_partition (xmi_content : str)
    (ners relations : pdict record) :
  xmi2json.extract_custom_annos xmi_content = Ok (ners, relations) ->
  exists annos,
    xmi2json.scan_annos xmi_content = Ok annos /\
    (forall k v,
        pdict_get annos k = Some v ->
        (dict_mem $"Dependent" v = true /\ dict_mem $"Governor" v = true ->
         pdict_get relations k = Some v /\ pdict_get ners k = None) /\
        (dict_mem $"Dependent" v = false /\ dict_mem $"Governor" v = false ->
         pdict_get ners k = Some v /\ pdict_get relations k = None) /\
        (dict_mem $"Dependent" v <> dict_mem $"Governor" v ->
         pdict_get ners k = None /\ pdict_get relations k = None)) /\
    (forall k v,
        pdict_get ners k = Some v \/ pdict_get relations k = Some v ->
        pdict_get annos k = Some v).
Proof.
  intro Hrun.
  destruct (extract_custom_annos_scan _ _ _ Hrun)
    as (annos & Hscan & [Hnd _] & -> & ->).
  exists annos. split; [exact Hscan|].
  unfold pdict_get.
  split.
  - intros k v Hget.
    rewrite !(assoc_get_filter pyval_eqb pyval_eqb_eq) by exact Hnd.
    rewrite Hget. unfold xmi2json.is_ner, xmi2json.is_relation.
    destruct (dict_mem $"Dependent" v), (dict_mem $"Governor" v);
      cbn [negb andb]; repeat split; intros; try reflexivity;
      try (destruct H; discriminate); congruence.
  - intros k v.
    rewrite !(assoc_get_filter pyval_eqb pyval_eqb_eq) by exact Hnd.
    destruct (assoc_get pyval_eqb annos k) as [v0|]; [|intros [H|H]; discriminate].
    destruct (xmi2json.is_ner v0), (xmi2json.is_relation v0);
      intros [H|H]; congruence.
Qed.

Lemma custom_annos_partition_witness :
  xmi2json.extract_custom_annos half_relation_line = Ok ([], []) /\
  exists annos,
    xmi2json.scan_annos half_relation_line = Ok annos /\
    forall k v,
      pdict_get ([] : pdict record) k = Some v \/
      pdict_get ([] : pdict record) k = Some v ->
      pdict_get annos k = Some v.
Proof.
  assert (H : xmi2json.extract_custom_annos half_relation_line = Ok ([], [])).
  { vm_compute. reflexivity. }
  split; [exact H|].
  destruct (custom_annos_partition half_relation_line [] [] H)
    as (annos & Hscan & _ & Hback).
  exists annos. split; [exact Hscan | exact Hback].
Defined.

(** ** Duplicate identifiers *)






(** ** Offsets of tokens and entity spans *)

Lemma clamp_index_nonneg (n i : Z) :
  0 <= n -> 0 <= i -> clamp_index n i = Z.min i n.
Proof.
  intros Hn Hi. unfold clamp_index.
  destruct (i <? 0) eqn:E; [apply Z.ltb_lt in E; lia|]. rewrite E.
  destruct (n <? i) eqn:E2;
    [apply Z.ltb_lt in E2 | apply Z.ltb_ge in E2]; lia.
Qed.

(** A slice between two non-negative offsets is empty unless the first is
    below the second. *)
Lemma slice_nonempty_lt (s : str) (b e : Z) :
  0 <= b -> 0 <= e -> slice s b e <> [] -> b < e.
Proof.
  intros Hb He Hne.
  destruct (Z.lt_ge_cases b e) as [Hlt|Hge]; [exact Hlt|].
  exfalso. apply Hne. unfold slice.
  rewrite !clamp_index_nonneg by (auto using len_nonneg).
  replace (Z.to_nat (Z.min e (len s)) - Z.to_nat (Z.min b (len s)))%nat
    with O by lia.
  reflexivity.
Qed.

Lemma token_step_inv (sofa_text : option str) acc (el : element) acc' :
  Forall (fun t => 0 <= tok_begin t -> 0 <= tok_end t ->
                   tok_begin t < tok_end t) (fst acc) ->
  xmi2json.token_step sofa_text acc el = Ok acc' ->
  Forall (fun t => 0 <= tok_begin t -> 0 <= tok_end t ->
                   tok_begin t < tok_end t) (fst acc').
Proof.
  intros Hacc. unfold xmi2json.token_step. destruct acc as [tokens lookup].
  destruct (int_ (element_get el $"begin")) as [b|]; cbn [bind]; [|discriminate].
  destruct (int_ (element_get el $"end")) as [e|]; cbn [bind]; [|discriminate].
  destruct sofa_text as [text|]; cbn [subscript bind]; [|discriminate].
  destruct (collapse_ws (strip (slice text b e))) as [|c cs] eqn:Htext;
    cbn [is_nil]; intro H; inversion H; subst; cbn [fst] in *; [exact Hacc|].
  apply Forall_app. split; [exact Hacc|].
  constructor; [|constructor]. cbn [tok_begin tok_end].
  intros Hb He. apply (slice_nonempty_lt text); auto.
  intro Hnil. rewrite Hnil in Htext. discriminate.
Qed.

Lemma extract_tokens_offsets (ET : str -> result xmi_tree) (xmi_content : str)
    tokens lookup :
  xmi2json.extract_tokens_from_xmi ET xmi_content = Ok (tokens, lookup) ->
  Forall (fun t => 0 <= tok_begin t -> 0 <= tok_end t ->
                   tok_begin t < tok_end t) tokens.
Proof.
  unfold xmi2json.extract_tokens_from_xmi.
  destruct (ET xmi_content) as [root|]; cbn [bind]; [|discriminate].
  intro Hrun.
  change tokens with (fst (tokens, lookup)).
  eapply (for_each_inv
            (fun acc => Forall (fun t => 0 <= tok_begin t -> 0 <= tok_end t ->
                                         tok_begin t < tok_end t) (fst acc)));
    [|  | exact Hrun].
  - intros acc x acc' Hacc Hstep. eapply token_step_inv; eauto.
  - constructor.
Qed.

Lemma offsets_counterexample :
  (exists ners sp,
      xmi2json.extract_custom_annos reversed_span_line = Ok (ners, []) /\
      In (VStr $"12", sp) ners /\
      dict_get sp $"begin" = Some (VInt 9) /\
      dict_get sp $"end" = Some (VInt 3)) /\
  xmi2json.extract_tokens_from_xmi (fun _ => Ok (one_token_tree "-3" "-1")) []
  = Ok ([ {| tok_xmi_id := None; tok_begin := -3; tok_end := -1;
             tok_token := $"e" |} ],
        [ ((-3, -1), $"e") ]).
Proof.
  split; [|vm_compute; reflexivity].
  eexists. eexists. split; [vm_compute; reflexivity|].
  split; [left; reflexivity|]. split; vm_compute; reflexivity.
Qed.

(** C5 (amended).  Every Entity Span that [extract_custom_annos] produces
    has non-negative integer begin and end offsets (their order is not
    checked), and every Token that [extract_tokens_from_xmi] produces with
    non-negative begin and end offsets has its begin below its end. *)
Theorem offsets_of_spans_and_tokens (ET : str -> result xmi_tree)
    (xmi_content : str) (tokens : list token) (lookup : odict str)
    (ners relations : pdict record) :
  xmi2json.extract_tokens_from_xmi ET xmi_content = Ok (tokens, lookup) ->
  xmi2json.extract_custom_annos xmi_content = Ok (ners, relations) ->
  (forall k sp, In (k, sp) ners ->
     exists b e,
       dict_get sp $"begin" = Some (VInt b) /\
       dict_get sp $"end" = Some (VInt e) /\
       0 <= b /\ 0 <= e) /\
  (forall t, In t tokens ->
     0 <= tok_begin t -> 0 <= tok_end t ->
     tok_begin t < tok_end t /\ tok_begin t <= tok_end t).
Proof.
  intros Htok Hannos. split.
  - destruct (extract_custom_annos_scan _ _ _ Hannos)
      as (annos & Hrun & [_ Hall] & -> & ->).
    intros k sp Hin. apply filter_In in Hin. destruct Hin as [Hin _].
    rewrite Forall_forall in Hall. destruct (Hall _ Hin) as [Hwf _].
    cbn [snd] in Hwf. destruct Hwf as (_ & _ & (b & Hb & Hb0) & (e & He & He0)).
    exists b, e. auto.
  - intros t Hin Hb He.
    pose proof (extract_tokens_offsets ET xmi_content tokens lookup Htok) as Hall.
    rewrite Forall_forall in Hall. specialize (Hall t Hin Hb He). lia.
Qed.

Lemma offsets_of_spans_and_tokens_witness :
  xmi2json.extract_tokens_from_xmi (fun _ => Ok (one_token_tree "0" "5"))
    plain_span_line
  = Ok ([ {| tok_xmi_id := None; tok_begin := 0; tok_end := 5;
             tok_token := $"Paris" |} ],
        [ ((0, 5), $"Paris") ]) /\
  exists ners,
    xmi2json.extract_custom_annos plain_span_line = Ok (ners, []) /\
    forall k sp, In (k, sp) ners ->
      exists b e,
        dict_get sp $"begin" = Some (VInt b) /\
        dict_get sp $"end" = Some (VInt e) /\
        0 <= b /\ 0 <= e.
Proof.
  split; [vm_compute; reflexivity|].
  eexists. split; [vm_compute; reflexivity|].
  refine (proj1 (offsets_of_spans_and_tokens
                   (fun _ => Ok (one_token_tree "0" "5")) plain_span_line
                   _ _ _ [] _ _)).
  - vm_compute. reflexivity.
  - vm_compute. reflexivity.
Defined.

(** ** Malformed offsets *)

Lemma for_each_raises {A S} (body : S -> A -> result S) (xs : list A) (x : A) :
  In x xs ->
  (forall acc, exists e, body acc x = Err e) ->
  forall acc, exists e, for_each body xs acc = Err e.
Proof.
  intros Hin Hx. induction xs as [|y xs IH]; [destruct Hin|].
  intro acc. cbn [for_each]. destruct Hin as [-> | Hin].
  - destruct (Hx acc) as [e He]. rewrite He. exists e. reflexivity.
  - destruct (body acc y) as [acc'|e]; cbn [bind].
    + apply IH. exact Hin.
    + exists e. reflexivity.
Qed.

Lemma token_step_raises (sofa_text : option str) (el : element) :
  malformed_offset el ->
  forall acc, exists e, xmi2json.token_step sofa_text acc el = Err e.
Proof.
  intros Hbad [tokens lookup]. unfold xmi2json.token_step.
  destruct Hbad as [(s & Hs & Hint) | (s & Hs & Hint)].
  - rewrite Hs. unfold int_ at 1. rewrite Hint. cbn [bind]. eauto.
  - destruct (int_ (element_get el $"begin")) as [b|e]; cbn [bind]; [|eauto].
    rewrite Hs. unfold int_. rewrite Hint. cbn [bind]. eauto.
Qed.

Lemma malformed_offsets_counterexample :
  xmi2json.process_xmi_file (fun _ => Ok (one_token_tree "0" "5"))
    malformed_span_line
  = Ok ([], []) /\
  xmi2conll.process_xmi_to_conll (fun _ => Ok (one_token_tree "0" "5"))
    malformed_span_line
  = Ok (lines [ $"Paris 0 5 O"; $"is 6 8 O"; $"the 9 12 O";
                $"capital 13 20 O"; $"of 21 23 O"; $"France 24 30 O";
                $". 31 32 O" ]).
Proof. split; vm_compute; reflexivity. Qed.

(** A line on which the begin probe or the end probe finds nothing is
    skipped. *)
Lemma line_step_skips (annos : pdict record) (xmi_line : str) :
  begin_pattern xmi_line = None \/ end_pattern xmi_line = None ->
  xmi2json.line_step annos xmi_line = Ok annos.
Proof.
  intro Hnone. unfold xmi2json.line_step.
  destruct (label_pattern xmi_line); [|reflexivity].
  destruct (xmi_id_pattern xmi_line); [|reflexivity].
  destruct Hnone as [-> | Hnone]; [reflexivity|].
  destruct (begin_pattern xmi_line); [|reflexivity].
  rewrite Hnone. reflexivity.
Qed.

(** C3 (amended).  When a Token element of the parsed file carries a begin
    or end attribute that is not an integer, both conversions of the file
    raise, so that nothing is written for it.  A custom annotation line on
    which the begin probe or the end probe finds no quoted run of digits
    is skipped: the line loop goes on with the mapping unchanged and
    raises nothing. *)
Theorem malformed_offsets :
  (forall (ET : str -> result xmi_tree) (xmi_content : str)
          (root : xmi_tree) (el : element),
      ET xmi_content = Ok root ->
      In el (token_elements root) ->
      malformed_offset el ->
      (exists e, xmi2json.process_xmi_file ET xmi_content = Err e) /\
      (exists e, xmi2conll.process_xmi_to_conll ET xmi_content = Err e)) /\
  (forall (annos : pdict record) (xmi_line : str),
      begin_pattern xmi_line = None \/ end_pattern xmi_line = None ->
      xmi2json.line_step annos xmi_line = Ok annos).
Proof.
  split; [|exact line_step_skips].
  intros ET xmi_content root el Hparse Hin Hbad.
  assert (Htok : exists e,
            xmi2json.extract_tokens_from_xmi ET xmi_content = Err e).
  { unfold xmi2json.extract_tokens_from_xmi. rewrite Hparse. cbn [bind].
    eapply for_each_raises; [exact Hin|].
    now apply token_step_raises. }
  destruct Htok as [e He]. split.
  - exists e. unfold xmi2json.process_xmi_file. rewrite He. reflexivity.
  - exists e. unfold xmi2conll.process_xmi_to_conll. rewrite He. reflexivity.
Qed.

Lemma malformed_offsets_witness :
  malformed_offset {| attrib := [ ($"begin", $"0"); ($"end", $"5x") ] |} /\
  (exists e,
      xmi2json.process_xmi_file (fun _ => Ok (one_token_tree "0" "5x"))
        plain_span_line = Err e) /\
  begin_pattern malformed_span_line = None /\
  xmi2json.line_step [] malformed_span_line = Ok [].
Proof.
  assert (H : malformed_offset
                {| attrib := [ ($"begin", $"0"); ($"end", $"5x") ] |}).
  { right. exists $"5x". split; vm_compute; reflexivity. }
  assert (Hb : begin_pattern malformed_span_line = None).
  { vm_compute. reflexivity. }
  split; [exact H|]. split; [|split; [exact Hb|]].
  - exact (proj1 (proj1 malformed_offsets
                    (fun _ => Ok (one_token_tree "0" "5x"))
                    plain_span_line (one_token_tree "0" "5x")
                    {| attrib := [ ($"begin", $"0"); ($"end", $"5x") ] |}
                    eq_refl (or_introl eq_refl) H)).
  - exact (proj2 malformed_offsets [] malformed_span_line (or_introl Hb)).
Defined.

(** ** Attribute capture *)

(** C2 (failing input).  On a line with the attributes xmi:id, sofa, begin,
    end and Role the record gets, next to Role, a key id that holds the
    value of xmi:id: the attribute pattern captures the name after the
    colon, which the list of reserved names does not contain. *)
Theorem xmi_id_captured_as_id :
  attribute_pattern plain_span_line
    = [ ($"id", $"12"); ($"sofa", $"1"); ($"begin", $"0"); ($"end", $"5");
        ($"Role", $"agent") ] /\
  xmi2json.extract_custom_annos plain_span_line
    = Ok ([ (VStr $"12",
             [ ($"xmi_id", VStr $"12"); ($"begin", VInt 0); ($"end", VInt 5);
               ($"label", VStr $"Span"); ($"id", VStr $"12");
               ($"Role", VStr $"agent") ]) ],
          []).
Proof. split; vm_compute; reflexivity. Qed.

(** * Further properties *)

(** ** What the attribute pattern captures *)

Lemma re_findall_from_In {A} (at_pos : str -> option (A * nat)) (s : str) :
  forall skip a,
    In a (re_findall_from at_pos skip s) ->
    exists suffix n, at_pos suffix = Some (a, n).
Proof.
  induction s as [|c s IH]; intros skip a Hin; cbn [re_findall_from] in Hin.
  - destruct Hin.
  - destruct skip as [|k]; [|eauto].
    destruct (at_pos (c :: s)) as [[a0 n]|] eqn:E; [|eauto].
    destruct Hin as [<- | Hin]; eauto.
Qed.

Lemma attribute_at_shape (s name value : str) (n : nat) :
  attribute_at s = Some ((name, value), n) ->
  name <> [] /\ forallb isword name = true /\
  value <> [] /\ forallb notquote value = true.
Proof.
  unfold attribute_at.
  destruct (takewhile isword s) as [|c name'] eqn:En; [discriminate|].
  destruct (strip_prefix ["="%char; dquote] (dropwhile isword s)) as [rest|];
    [|discriminate].
  destruct (takewhile notquote rest) as [|d value'] eqn:Ev; [discriminate|].
  destruct (dropwhile notquote rest); [discriminate|].
  intro H. inversion H. subst.
  repeat split; try discriminate.
  - rewrite <- En. apply takewhile_all.
  - rewrite <- Ev. apply takewhile_all.
Qed.

(** X1.  Every name that the attribute pattern captures on a line is a
    non-empty run of word characters and every value a non-empty run of
    characters other than the double quote.  So a captured name has no
    colon: the name xmi:id, first in the list of reserved names, is never
    captured, on any line. *)
Theorem captured_attributes_shape (xmi_line name value : str) :
  In (name, value) (attribute_pattern xmi_line) ->
  name <> [] /\ forallb isword name = true /\
  value <> [] /\ ~ In dquote value /\
  ~ In ":"%char name /\ name <> $"xmi:id".
Proof.
  intro Hin. unfold attribute_pattern, re_findall in Hin.
  destruct (re_findall_from_In _ _ _ _ Hin) as (suffix & n & Hat).
  destruct (attribute_at_shape _ _ _ _ Hat) as (Hn & Hw & Hv & Hq).
  assert (Hcolon : ~ In ":"%char name).
  { intro Hc. rewrite forallb_forall in Hw. specialize (Hw _ Hc).
    vm_compute in Hw. discriminate. }
  repeat split; auto.
  - intro Hd. rewrite forallb_forall in Hq. specialize (Hq _ Hd).
    unfold notquote in Hq. rewrite Ascii.eqb_refl in Hq. discriminate.
  - intro Heq. apply Hcolon. rewrite Heq. vm_compute. tauto.
Qed.

Lemma captured_attributes_shape_witness :
  In ($"id", $"12") (attribute_pattern plain_span_line) /\
  $"id" <> $"xmi:id".
Proof.
  assert (H : In ($"id", $"12") (attribute_pattern plain_span_line)).
  { vm_compute. left. reflexivity. }
  split; [exact H|].
  exact (proj2 (proj2 (proj2 (proj2 (proj2
    (captured_attributes_shape plain_span_line $"id" $"12" H)))))).
Defined.

(** ** The fields of a record *)

Lemma assoc_get_app {K V} (eqb : K -> K -> bool) (l1 l2 : list (K * V)) k :
  assoc_get eqb (l1 ++ l2) k =
  match assoc_get eqb l1 k with
  | Some v => Some v
  | None => assoc_get eqb l2 k
  end.
Proof.
  induction l1 as [|[k0 v0] l1 IH]; cbn [app assoc_get]; [reflexivity|].
  destruct (eqb k0 k); auto.
Qed.

Lemma is_reserved_In (k : str) :
  is_reserved k = true -> In k xmi2json.reserved.
Proof.
  unfold is_reserved. intro H. apply existsb_exists in H.
  destruct H as (x & Hin & Heq). apply str_eqb_eq in Heq. now subst.
Qed.

Lemma fold_add_attribute_get (attrs : list (str * str)) :
  forall (d : record) (k : str),
    dict_get (fold_left xmi2json.add_attribute attrs d) k =
    match (if is_reserved k then None else last_captured attrs k) with
    | Some v => Some (VStr v)
    | None => dict_get d k
    end.
Proof.
  induction attrs as [|[n v] attrs IH]; intros d k; cbn [fold_left].
  - unfold last_captured. cbn [rev assoc_get]. now destruct (is_reserved k).
  - rewrite IH. unfold last_captured. cbn [rev]. rewrite assoc_get_app.
    destruct (is_reserved k) eqn:Hk.
    + apply add_attribute_reserved. now apply is_reserved_In.
    + destruct (assoc_get str_eqb (rev attrs) k); [reflexivity|].
      cbn [assoc_get]. unfold xmi2json.add_attribute.
      destruct (str_eqb n k) eqn:Hnk.
      * apply str_eqb_eq in Hnk. subst n.
        fold (is_reserved k). rewrite Hk.
        apply (assoc_get_set_same str_eqb str_eqb_eq).
      * apply str_eqb_neq in Hnk.
        destruct (existsb (str_eqb n) xmi2json.reserved); [reflexivity|].
        apply (assoc_get_set_other str_eqb str_eqb_eq). exact Hnk.
Qed.

(** X2.  The record built from an accepted line: its begin and end are
    the integers of the digit runs that the begin and end probes capture,
    both non-negative; for every captured attribute name other than begin,
    end and sofa it holds the value of the last pair captured with that
    name, also when the name is xmi_id or label; every other key holds what
    the probes gave (the identifier under xmi_id, the tag name under
    label) or is absent. *)
Theorem accepted_line_record (xmi_line : str) (r : record) :
  line_record xmi_line = Some r ->
  exists label xmi_id bs es b e,
    label_pattern xmi_line = Some label /\
    xmi_id_pattern xmi_line = Some xmi_id /\
    begin_pattern xmi_line = Some bs /\ py_int bs = Some b /\ 0 <= b /\
    end_pattern xmi_line = Some es /\ py_int es = Some e /\ 0 <= e /\
    dict_get r $"begin" = Some (VInt b) /\
    dict_get r $"end" = Some (VInt e) /\
    forall k,
      dict_get r k =
      match (if is_reserved k then None
             else last_captured (attribute_pattern xmi_line) k) with
      | Some v => Some (VStr v)
      | None => dict_get (base_record xmi_id b e label) k
      end.
Proof.
  unfold line_record.
  destruct (label_pattern xmi_line) as [label|]; [|discriminate].
  destruct (xmi_id_pattern xmi_line) as [xmi_id|]; [|discriminate].
  destruct (begin_pattern xmi_line) as [bs|] eqn:Hb; [|discriminate].
  destruct (end_pattern xmi_line) as [es|] eqn:He; [|discriminate].
  apply search_digits in Hb. apply search_digits in He.
  unfold xmi2json.build_anno, int_.
  destruct (py_int bs) as [b|] eqn:Hpb; cbn [bind]; [|discriminate].
  destruct (py_int es) as [e|] eqn:Hpe; cbn [bind]; [|discriminate].
  destruct (py_int_digits_inv _ _ Hb Hpb) as [_ Hb0].
  destruct (py_int_digits_inv _ _ He Hpe) as [_ He0].
  intro H. inversion H. subst r. clear H.
  exists label, xmi_id, bs, es, b, e.
  repeat (split; [first [reflexivity | assumption]|]).
  fold (base_record xmi_id b e label).
  split; [|split]; [| |intro k; apply fold_add_attribute_get];
    rewrite fold_add_attribute_get; reflexivity.
Qed.

Lemma accepted_line_record_witness :
  line_record plain_span_line
    = Some [ ($"xmi_id", VStr $"12"); ($"begin", VInt 0); ($"end", VInt 5);
             ($"label", VStr $"Span"); ($"id", VStr $"12");
             ($"Role", VStr $"agent") ] /\
  last_captured (attribute_pattern plain_span_line) $"Role" = Some $"agent".
Proof.
  assert (H : line_record plain_span_line
    = Some [ ($"xmi_id", VStr $"12"); ($"begin", VInt 0); ($"end", VInt 5);
             ($"label", VStr $"Span"); ($"id", VStr $"12");
             ($"Role", VStr $"agent") ]).
  { vm_compute. reflexivity. }
  split; [exact H|].
  destruct (accepted_line_record plain_span_line _ H)
    as (label & xmi_id & bs & es & b & e & _).
  vm_compute. reflexivity.
Defined.

(** ** What [extract_custom_annos] returns *)

Lemma NoDup_keys_filter {K V} (p : K * V -> bool) (d : list (K * V)) :
  NoDup (map fst d) -> NoDup (map fst (filter p d)).
Proof.
  induction d as [|kv d IH]; cbn [map filter]; intro H; [constructor|].
  inversion H as [|? ? Hnot Hnd]. subst.
  destruct (p kv); cbn [map]; [|auto].
  constructor; [|auto].
  intro Hin. apply Hnot. apply in_map_iff in Hin.
  destruct Hin as (x & Hx & Hin). apply filter_In in Hin.
  rewrite <- Hx. apply in_map. tauto.
Qed.

(** X3.  [extract_custom_annos] raises exactly when some accepted line
    (one on which all four probes find a match) has a begin or end run of
    more than 4300 digits, and what it raises then is a value error.
    Whenever it returns, in each of the two mappings no key occurs twice,
    every record is stored under the value of its own xmi_id field, and
    every record has a string under xmi_id and under label and a
    non-negative integer under begin and under end. *)
Theorem extract_custom_annos_outcome (xmi_content : str) :
  ((forall l, In l (split_on xmi2json.newline xmi_content) ->
              accepted l -> runs_fit l) ->
   exists ners relations,
     xmi2json.extract_custom_annos xmi_content = Ok (ners, relations)) /\
  (forall l, In l (split_on xmi2json.newline xmi_content) ->
             accepted l -> ~ runs_fit l ->
             xmi2json.extract_custom_annos xmi_content = Err ValueError) /\
  (forall ners relations,
      xmi2json.extract_custom_annos xmi_content = Ok (ners, relations) ->
      NoDup (map fst ners) /\
      NoDup (map fst relations) /\
      forall k r,
        In (k, r) ners \/ In (k, r) relations ->
        dict_get r $"xmi_id" = Some k /\ record_wf r).
Proof.
  split; [|split].
  - intro Hfit. destruct (lines_fit _ Hfit []) as [annos Hrun].
    unfold xmi2json.extract_custom_annos, xmi2json.scan_annos.
    rewrite Hrun. cbn [bind]. eauto.
  - intros l Hin Hacc Hno.
    unfold xmi2json.extract_custom_annos, xmi2json.scan_annos.
    rewrite (lines_overflow _ l Hin Hacc Hno). reflexivity.
  - intros ners relations Hres.
    destruct (extract_custom_annos_scan _ _ _ Hres)
      as (annos & Hrun & [Hnd Hall] & -> & ->).
    split; [now apply NoDup_keys_filter|].
    split; [now apply NoDup_keys_filter|].
    intros k r Hin.
    assert (Hannos : In (k, r) annos).
    { destruct Hin as [Hin | Hin]; apply filter_In in Hin; tauto. }
    rewrite Forall_forall in Hall. destruct (Hall _ Hannos) as [Hwf Hkey].
    auto.
Qed.

Lemma extract_custom_annos_outcome_witness :
  exists ners relations,
    xmi2json.extract_custom_annos plain_span_line = Ok (ners, relations) /\
    NoDup (map fst ners).
Proof.
  destruct (extract_custom_annos_outcome plain_span_line)
    as (Hfit & _ & Hres).
  destruct Hfit as (ners & relations & Hrun).
  - intros l [<- | []] _. split; intros ds H; vm_compute in H;
      inversion H; subst ds; unfold int_fits, int_max_str_digits;
      cbn [length]; lia.
  - exists ners, relations. split; [exact Hrun|].
    exact (proj1 (Hres ners relations Hrun)).
Defined.

(** ** Lines that are not accepted *)

Lemma line_step_not_accepted (annos : pdict record) (xmi_line : str) :
  label_pattern xmi_line = None \/ xmi_id_pattern xmi_line = None \/
  begin_pattern xmi_line = None \/ end_pattern xmi_line = None ->
  xmi2json.line_step annos xmi_line = Ok annos.
Proof.
  unfold xmi2json.line_step. intros [H | [H | [H | H]]]; rewrite H.
  - reflexivity.
  - now destruct (label_pattern xmi_line).
  - now destruct (label_pattern xmi_line), (xmi_id_pattern xmi_line).
  - now destruct (label_pattern xmi_line), (xmi_id_pattern xmi_line),
      (begin_pattern xmi_line).
Qed.

(** X4.  A line on which one of the four probes (tag name, xmi:id, begin,
    end) finds nothing leaves no trace: the result of
    [extract_custom_annos] is the one of the same content without that
    line. *)
Theorem unaccepted_line_ignored (xmi_content xmi_content' : str)
    (before after : list str) (xmi_line : str) :
  split_on xmi2json.newline xmi_content = before ++ xmi_line :: after ->
  split_on xmi2json.newline xmi_content' = before ++ after ->
  label_pattern xmi_line = None \/ xmi_id_pattern xmi_line = None \/
  begin_pattern xmi_line = None \/ end_pattern xmi_line = None ->
  xmi2json.extract_custom_annos xmi_content
  = xmi2json.extract_custom_annos xmi_content'.
Proof.
  intros Hc Hc' Hskip.
  unfold xmi2json.extract_custom_annos, xmi2json.scan_annos.
  rewrite Hc, Hc', !for_each_app.
  destruct (for_each xmi2json.line_step before []) as [a1|]; cbn [bind];
    [|reflexivity].
  cbn [for_each]. rewrite (line_step_not_accepted a1 xmi_line Hskip).
  reflexivity.
Qed.

Lemma unaccepted_line_ignored_witness :
  end_pattern (xml "<custom:Span xmi:id='13' begin='6'/>") = None /\
  xmi2json.extract_custom_annos
    (lines [ plain_span_line; xml "<custom:Span xmi:id='13' begin='6'/>" ])
  = xmi2json.extract_custom_annos plain_span_line.
Proof.
  assert (H : end_pattern (xml "<custom:Span xmi:id='13' begin='6'/>") = None).
  { vm_compute. reflexivity. }
  split; [exact H|].
  apply (unaccepted_line_ignored _ _ [plain_span_line] []
           (xml "<custom:Span xmi:id='13' begin='6'/>")).
  - vm_compute. reflexivity.
  - vm_compute. reflexivity.
  - right. right. right. exact H.
Defined.

(** ** The tokens of [extract_tokens_from_xmi] *)

Lemma dropwhile_split {A} (f : A -> bool) (l : list A) :
  l = takewhile f l ++ dropwhile f l.
Proof.
  induction l as [|x l IH]; cbn [takewhile dropwhile]; [reflexivity|].
  destruct (f x); cbn [app]; [now f_equal | reflexivity].
Qed.

Lemma dropwhile_first {A} (f : A -> bool) (l : list A) x r :
  dropwhile f l = x :: r -> f x = false.
Proof.
  induction l as [|y l IH]; cbn [dropwhile]; [discriminate|].
  destruct (f y) eqn:E; [exact IH|].
  intro H. inversion H. now subst.
Qed.

Lemma ends_nonspace_snoc (l : str) (d : ascii) :
  ends_nonspace (l ++ [d]) = negb (isspace d).
Proof.
  induction l as [|a l IH]; [reflexivity|].
  cbn [app ends_nonspace]. destruct (l ++ [d]) eqn:E; [|exact IH].
  destruct l; discriminate.
Qed.

Lemma strip_ends (s : str) c r :
  strip s = c :: r -> isspace c = false /\ ends_nonspace (c :: r) = true.
Proof.
  unfold strip. intro H.
  set (u := dropwhile isspace s) in *.
  destruct (dropwhile isspace (rev u)) as [|d v] eqn:Hv; [discriminate|].
  pose proof (dropwhile_first _ _ _ _ Hv) as Hd.
  split.
  - pose proof (dropwhile_split isspace (rev u)) as Hsplit.
    rewrite Hv in Hsplit. apply (f_equal (@rev ascii)) in Hsplit.
    rewrite rev_involutive, rev_app_distr, H in Hsplit.
    cbn [app] in Hsplit. unfold u in Hsplit.
    exact (dropwhile_first _ _ _ _ Hsplit).
  - rewrite <- H. cbn [rev]. rewrite ends_nonspace_snoc, Hd. reflexivity.
Qed.

Lemma collapse_tidy (s : str) :
  forall b, ends_nonspace s = true ->
            tidy_from b (collapse_ws_from b s) = true.
Proof.
  induction s as [|c s IH]; intros b Hends; [discriminate|].
  assert (Hrest : s = [] \/ ends_nonspace s = true).
  { destruct s; [now left | right; exact Hends]. }
  cbn [collapse_ws_from]. destruct (isspace c) eqn:Hc.
  - destruct Hrest as [-> | Hrest].
    { cbn [ends_nonspace] in Hends. rewrite Hc in Hends. discriminate. }
    destruct b; [now apply IH|].
    change (tidy_from false (" "%char :: collapse_ws_from true s))
      with (tidy_from true (collapse_ws_from true s)).
    now apply IH.
  - cbn [tidy_from]. rewrite Hc.
    destruct Hrest as [-> | Hrest]; [reflexivity | now apply IH].
Qed.

Lemma normalized_slice_tidy (text : str) (b e : Z) :
  normalized_slice text b e <> [] -> tidy (normalized_slice text b e) = true.
Proof.
  unfold normalized_slice, tidy, collapse_ws.
  destruct (strip (slice text b e)) as [|c r] eqn:Hs; [intro H; now elim H|].
  intros _. destruct (strip_ends _ _ _ Hs) as [Hc Hends].
  cbn [collapse_ws_from]. rewrite Hc. cbn [tidy_from]. rewrite Hc.
  destruct r as [|d r]; [reflexivity|].
  apply collapse_tidy. exact Hends.
Qed.

Lemma span_eqb_eq (a b : Z * Z) : span_eqb a b = true <-> a = b.
Proof.
  destruct a as [a1 a2], b as [b1 b2]. unfold span_eqb. cbn [fst snd].
  rewrite andb_true_iff, !Z.eqb_eq. split; [intros [-> ->] | intro H; inversion H]; auto.
Qed.

Lemma token_step_tokens_inv (sofa_text : option str) acc el acc' :
  tokens_inv sofa_text acc ->
  xmi2json.token_step sofa_text acc el = Ok acc' ->
  tokens_inv sofa_text acc'.
Proof.
  intros (Htext & Hback & Hget). unfold xmi2json.token_step.
  destruct acc as [tokens lookup]. cbn [fst snd] in *.
  destruct (int_ (element_get el $"begin")) as [b|]; cbn [bind]; [|discriminate].
  destruct (int_ (element_get el $"end")) as [e|]; cbn [bind]; [|discriminate].
  destruct sofa_text as [text|]; cbn [subscript bind]; [|discriminate].
  fold (normalized_slice text b e).
  destruct (normalized_slice text b e) as [|c cs] eqn:Hn; cbn [is_nil];
    intro H; inversion H; subst acc'; clear H; unfold tokens_inv;
    cbn [fst snd].
  { repeat split; assumption. }
  assert (Hsame : forall t, In t tokens ->
            (tok_begin t, tok_end t) = (b, e) -> tok_token t = c :: cs).
  { intros t Hin Heq. destruct (Htext t Hin) as (text' & Ht & Hnorm & _).
    inversion Ht. subst text'. inversion Heq. subst. congruence. }
  split; [|split].
  - intros t Hin. apply in_app_or in Hin. destruct Hin as [Hin | [<- | []]].
    + exact (Htext t Hin).
    + exists text. cbn [tok_token tok_begin tok_end].
      repeat split; [now rewrite Hn | discriminate].
  - intros b0 e0 s Hs. unfold odict_get, odict_set in Hs.
    destruct (span_eqb (b, e) (b0, e0)) eqn:E.
    + apply span_eqb_eq in E. inversion E. subst b0 e0.
      rewrite (assoc_get_set_same span_eqb span_eqb_eq) in Hs.
      inversion Hs. subst s. eexists. split; [apply in_or_app; right; left;
        reflexivity|]. cbn [tok_token tok_begin tok_end]. auto.
    + rewrite (assoc_get_set_other span_eqb span_eqb_eq) in Hs.
      2:{ intro Heq. rewrite Heq in E.
          assert (span_eqb (b0, e0) (b0, e0) = true) by now apply span_eqb_eq.
          congruence. }
      destruct (Hback b0 e0 s Hs) as (t & Hin & H1 & H2 & H3).
      exists t. split; [apply in_or_app; now left | auto].
  - intros t Hin. unfold odict_get, odict_set.
    apply in_app_or in Hin. destruct Hin as [Hin | [<- | []]].
    + destruct (span_eqb (b, e) (tok_begin t, tok_end t)) eqn:E.
      * apply span_eqb_eq in E. rewrite <- E.
        rewrite (assoc_get_set_same span_eqb span_eqb_eq).
        now rewrite (Hsame t Hin (eq_sym E)).
      * rewrite (assoc_get_set_other span_eqb span_eqb_eq).
        -- exact (Hget t Hin).
        -- intro Heq. rewrite Heq in E.
           assert (span_eqb (tok_begin t, tok_end t) (tok_begin t, tok_end t) = true)
             by now apply span_eqb_eq.
           congruence.
    + cbn [tok_token tok_begin tok_end].
      apply (assoc_get_set_same span_eqb span_eqb_eq).
Qed.

Lemma extract_tokens_inv (ET : str -> result xmi_tree) (xmi_content : str)
    (root : xmi_tree) tokens lookup :
  ET xmi_content = Ok root ->
  xmi2json.extract_tokens_from_xmi ET xmi_content = Ok (tokens, lookup) ->
  tokens_inv (xmi2json.sofa_string root) (tokens, lookup).
Proof.
  intros Hparse. unfold xmi2json.extract_tokens_from_xmi. rewrite Hparse.
  cbn [bind]. intro Hrun.
  eapply (for_each_inv (tokens_inv (xmi2json.sofa_string root)));
    [| | exact Hrun].
  - intros acc x acc'. apply token_step_tokens_inv.
  - unfold tokens_inv. cbn [fst snd]. split; [|split].
    + intros t [].
    + intros b e s H. discriminate.
    + intros t [].
Qed.

Lemma extract_tokens_parsed (ET : str -> result xmi_tree) (xmi_content : str)
    tl :
  xmi2json.extract_tokens_from_xmi ET xmi_content = Ok tl ->
  exists root, ET xmi_content = Ok root.
Proof.
  unfold xmi2json.extract_tokens_from_xmi.
  destruct (ET xmi_content) as [root|]; [eauto | discriminate].
Qed.

(** X5.  The text of every token that [extract_tokens_from_xmi] returns is
    the slice of the document text at the token's offsets with the
    whitespace at its ends removed and every run of whitespace inside
    replaced by one blank.  It is tidy: not empty, without whitespace at
    its ends, without two blanks in a row and without any whitespace
    character other than the blank. *)
Theorem token_text_normalized (ET : str -> result xmi_tree)
    (xmi_content : str) (tokens : list token) (lookup : odict str) (t : token) :
  xmi2json.extract_tokens_from_xmi ET xmi_content = Ok (tokens, lookup) ->
  In t tokens ->
  exists root text,
    ET xmi_content = Ok root /\
    xmi2json.sofa_string root = Some text /\
    tok_token t = collapse_ws (strip (slice text (tok_begin t) (tok_end t))) /\
    tok_token t <> [] /\
    tidy (tok_token t) = true.
Proof.
  intros Hrun Hin.
  destruct (extract_tokens_parsed _ _ _ Hrun) as [root Hparse].
  destruct (extract_tokens_inv _ _ _ _ _ Hparse Hrun) as (Htext & _ & _).
  destruct (Htext t Hin) as (text & Hsofa & Hnorm & Hne).
  exists root, text. repeat split; auto.
  rewrite Hnorm in *. now apply normalized_slice_tidy.
Qed.

(** X6.  The lookup table that [extract_tokens_from_xmi] returns agrees
    with its token list: under the offsets of every token it holds that
    token's text, and every entry of the table is the text of a token
    with these offsets. *)
Theorem token_lookup_agrees (ET : str -> result xmi_tree)
    (xmi_content : str) (tokens : list token) (lookup : odict str) :
  xmi2json.extract_tokens_from_xmi ET xmi_content = Ok (tokens, lookup) ->
  (forall t, In t tokens ->
     odict_get lookup (tok_begin t, tok_end t) = Some (tok_token t)) /\
  (forall b e s, odict_get lookup (b, e) = Some s ->
     exists t, In t tokens /\ tok_begin t = b /\ tok_end t = e /\
               tok_token t = s).
Proof.
  intros Hrun.
  destruct (extract_tokens_parsed _ _ _ Hrun) as [root Hparse].
  destruct (extract_tokens_inv _ _ _ _ _ Hparse Hrun) as (_ & Hback & Hget).
  split; assumption.
Qed.

Lemma spaced_tree_tokens :
  xmi2json.extract_tokens_from_xmi (fun _ => Ok spaced_tree) []
  = Ok ([ spaced_token ], [ ((0, 12), $"New York") ]).
Proof. vm_compute. reflexivity. Qed.

Lemma token_text_normalized_witness :
  In spaced_token [ spaced_token ] /\
  tidy (tok_token spaced_token) = true.
Proof.
  split; [left; reflexivity|].
  destruct (token_text_normalized (fun _ => Ok spaced_tree) [] _ _ spaced_token
              spaced_tree_tokens (or_introl eq_refl))
    as (root & text & _ & _ & _ & _ & Htidy).
  exact Htidy.
Defined.

Lemma token_lookup_agrees_witness :
  odict_get [ ((0, 12), $"New York") ] (0, 12) = Some $"New York".
Proof.
  exact (proj1 (token_lookup_agrees (fun _ => Ok spaced_tree) [] _ _
                  spaced_tree_tokens) spaced_token (or_introl eq_refl)).
Defined.

(** ** When token extraction succeeds *)

Lemma token_loop_members (text : str) (els : list element) :
  (forall el, In el els -> integer_offsets el) ->
  forall acc,
    exists r,
      for_each (xmi2json.token_step (Some text)) els acc = Ok r /\
      forall t, In t (fst r) <->
                In t (fst acc) \/ exists el, In el els /\ token_from text el t.
Proof.
  induction els as [|el els IH]; intros Hints acc; cbn [for_each].
  - exists acc. split; [reflexivity|]. intro t. split; [tauto|].
    intros [H | (el & [] & _)]. exact H.
  - destruct (Hints el (or_introl eq_refl)) as (b & e & Hb & He).
    assert (Hstep : exists acc1,
      xmi2json.token_step (Some text) acc el = Ok acc1 /\
      forall t, In t (fst acc1) <-> In t (fst acc) \/ token_from text el t).
    { unfold xmi2json.token_step. destruct acc as [tokens lookup].
      rewrite Hb, He. cbn [bind subscript fst].
      fold (normalized_slice text b e).
      destruct (normalized_slice text b e) as [|c cs] eqn:Hn; cbn [is_nil].
      - eexists. split; [reflexivity|]. cbn [fst]. intro t.
        split; [tauto|]. intros [H | (H1 & H2 & _ & H4 & H5)]; [exact H|].
        rewrite Hb in H1. rewrite He in H2. inversion H1. inversion H2.
        subst b e. congruence.
      - eexists. split; [reflexivity|]. cbn [fst]. intro t.
        rewrite in_app_iff. cbn [In]. split.
        + intros [H | [<- | []]]; [now left | right].
          unfold token_from. cbn [tok_begin tok_end tok_xmi_id tok_token].
          rewrite Hn. repeat split; auto. discriminate.
        + intros [H | (H1 & H2 & H3 & H4 & H5)]; [now left | right; left].
          rewrite Hb in H1. rewrite He in H2. inversion H1. inversion H2.
          destruct t as [x tb te tt]. cbn in *. subst. now rewrite Hn. }
    destruct Hstep as (acc1 & Hrun1 & Hmem1).
    destruct (IH (fun el0 H => Hints el0 (or_intror H)) acc1) as (r & Hrun & Hmem).
    exists r. rewrite Hrun1. cbn [bind]. split; [exact Hrun|].
    intro t. rewrite Hmem, Hmem1. cbn [In]. split.
    + intros [[H | H] | (el0 & Hin & H)]; eauto.
    + intros [H | (el0 & [<- | Hin] & H)]; eauto.
Qed.

(** X7.  When the file parses, its Sofa element has a sofaString and both
    offsets of every Token element are integers, [extract_tokens_from_xmi]
    raises nothing, and its tokens are exactly the tokens of the elements
    whose normalized text is not empty: each carries the two offsets of
    its element, the element's xmi:id entry and the normalized slice of
    the text. *)
Theorem extract_tokens_succeeds (ET : str -> result xmi_tree)
    (xmi_content : str) (root : xmi_tree) (text : str) :
  ET xmi_content = Ok root ->
  xmi2json.sofa_string root = Some text ->
  (forall el, In el (token_elements root) -> integer_offsets el) ->
  exists tokens lookup,
    xmi2json.extract_tokens_from_xmi ET xmi_content = Ok (tokens, lookup) /\
    forall t, In t tokens <->
              exists el, In el (token_elements root) /\ token_from text el t.
Proof.
  intros Hparse Hsofa Hints.
  destruct (token_loop_members text (token_elements root) Hints ([], []))
    as ([tokens lookup] & Hrun & Hmem).
  exists tokens, lookup. unfold xmi2json.extract_tokens_from_xmi.
  rewrite Hparse. cbn [bind]. rewrite Hsofa. split; [exact Hrun|].
  intro t. rewrite (Hmem t). cbn [fst In]. tauto.
Qed.

Lemma extract_tokens_succeeds_witness :
  (forall el, In el (token_elements spaced_tree) -> integer_offsets el) /\
  exists tokens lookup,
    xmi2json.extract_tokens_from_xmi (fun _ => Ok spaced_tree) []
    = Ok (tokens, lookup).
Proof.
  assert (H : forall el, In el (token_elements spaced_tree) ->
                         integer_offsets el).
  { intros el [<- | []]. exists 0, 12. split; vm_compute; reflexivity. }
  split; [exact H|].
  destruct (extract_tokens_succeeds (fun _ => Ok spaced_tree) [] spaced_tree
              $" New   York " eq_refl eq_refl H)
    as (tokens & lookup & Hrun & _).
  exists tokens, lookup. exact Hrun.
Defined.

Lemma split_ws_all_space (s : str) :
  forallb isspace s = true -> split_ws s = [].
Proof.
  induction s as [|c s IH]; [reflexivity|].
  cbn [forallb split_ws]. intro H. apply andb_true_iff in H.
  destruct H as [Hc Hs]. rewrite Hc. auto.
Qed.

Lemma slice_nil (b e : Z) : slice [] b e = [].
Proof.
  unfold slice. rewrite skipn_nil. apply firstn_nil.
Qed.

(** X8.  A file without a Sofa element has the empty document text: when
    both offsets of every Token element are integers,
    [extract_tokens_from_xmi] raises nothing and returns no token and an
    empty lookup table. *)
Theorem no_sofa_no_tokens (ET : str -> result xmi_tree) (xmi_content : str)
    (root : xmi_tree) :
  ET xmi_content = Ok root ->
  sofa_element root = None ->
  (forall el, In el (token_elements root) -> integer_offsets el) ->
  xmi2json.extract_tokens_from_xmi ET xmi_content = Ok ([], []).
Proof.
  intros Hparse Hsofa Hints.
  unfold xmi2json.extract_tokens_from_xmi.
  rewrite Hparse. cbn [bind]. unfold xmi2json.sofa_string. rewrite Hsofa.
  induction (token_elements root) as [|el els IH]; [reflexivity|].
  cbn [for_each]. destruct (Hints el (or_introl eq_refl)) as (b & e & Hb & He).
  unfold xmi2json.token_step at 1. rewrite Hb, He. cbn [bind subscript].
  rewrite slice_nil. cbn [strip collapse_ws collapse_ws_from dropwhile rev
                            is_nil bind].
  apply IH. intros. apply Hints. now right.
Qed.

Lemma no_sofa_no_tokens_witness :
  xmi2json.extract_tokens_from_xmi
    (fun _ => Ok {| sofa_element := None;
                    token_elements := token_elements spaced_tree |}) []
  = Ok ([], []).
Proof.
  apply (no_sofa_no_tokens _ _
           {| sofa_element := None;
              token_elements := token_elements spaced_tree |} eq_refl eq_refl).
  intros el [<- | []]. exists 0, 12. split; vm_compute; reflexivity.
Defined.

(** ** Edge cases of [convert_to_conll] *)

Lemma tag_span_no_tokens (L : zdict str) (sp : record) :
  has_span_keys sp -> xmi2conll.tag_span [] L sp = Ok L.
Proof.
  intros (Hl & Hb & He). unfold xmi2conll.tag_span, dict_item.
  destruct (dict_get sp $"label"); [|congruence].
  destruct (dict_get sp $"begin"); [|congruence].
  destruct (dict_get sp $"end"); [|congruence].
  reflexivity.
Qed.

(** X9.  When the document text has no character other than whitespace
    (the empty text included) and every span has a label, a begin and an
    end field, of whatever type, [convert_to_conll] raises nothing and
    returns the empty string. *)
Theorem blank_text_empty_output (ET : str -> result xmi_tree)
    (xmi_content : str) (root : xmi_tree) (text : str)
    (ners_spans : pdict record) :
  ET xmi_content = Ok root ->
  xmi2json.sofa_string root = Some text ->
  forallb isspace text = true ->
  (forall sp, In sp (map snd ners_spans) -> has_span_keys sp) ->
  xmi2conll.convert_to_conll ET xmi_content ners_spans = Ok [].
Proof.
  intros Hparse Hsofa Hblank Hkeys.
  unfold xmi2conll.convert_to_conll, xmi2conll.extract_sofa_string.
  rewrite Hparse. cbn [bind]. rewrite Hsofa. cbn [bind].
  unfold xmi2conll.conll_rows, xmi2conll.tokenize, xmi2conll.assign_labels.
  rewrite (split_ws_all_space text Hblank).
  cbn [xmi2conll.build_token_data xmi2conll.init_labels fold_left].
  assert (Hrun : for_each (xmi2conll.tag_span []) (map snd ners_spans) []
                 = Ok []).
  { induction (map snd ners_spans) as [|sp sps IH]; [reflexivity|].
    cbn [for_each]. rewrite tag_span_no_tokens by (apply Hkeys; now left).
    cbn [bind]. apply IH. intros. apply Hkeys. now right. }
  rewrite Hrun. reflexivity.
Qed.

Lemma blank_text_empty_output_witness :
  xmi2conll.convert_to_conll
    (fun _ => Ok {| sofa_element := None; token_elements := [] |}) []
    overlap_spans
  = Ok [].
Proof.
  apply (blank_text_empty_output _ _
           {| sofa_element := None; token_elements := [] |} [] _
           eq_refl eq_refl eq_refl).
  intros sp [<- | [<- | []]]; repeat split; discriminate.
Defined.

(** X10.  When the Sofa element of the file has no sofaString attribute,
    [convert_to_conll] raises an attribute error whatever the spans are,
    and [extract_tokens_from_xmi] raises a type error at the first Token
    element if its two offsets are integers; without Token elements it
    returns no token. *)
Theorem missing_sofa_string (ET : str -> result xmi_tree)
    (xmi_content : str) (root : xmi_tree) :
  ET xmi_content = Ok root ->
  xmi2json.sofa_string root = None ->
  (forall ners_spans,
      xmi2conll.convert_to_conll ET xmi_content ners_spans
      = Err AttributeError) /\
  (forall el els,
      token_elements root = el :: els ->
      integer_offsets el ->
      xmi2json.extract_tokens_from_xmi ET xmi_content = Err TypeError) /\
  (token_elements root = [] ->
   xmi2json.extract_tokens_from_xmi ET xmi_content = Ok ([], [])).
Proof.
  intros Hparse Hsofa. split; [|split].
  - intro ners_spans.
    unfold xmi2conll.convert_to_conll, xmi2conll.extract_sofa_string.
    rewrite Hparse. cbn [bind]. rewrite Hsofa. reflexivity.
  - intros el els Hels (b & e & Hb & He).
    unfold xmi2json.extract_tokens_from_xmi. rewrite Hparse. cbn [bind].
    rewrite Hsofa, Hels. cbn [for_each]. unfold xmi2json.token_step.
    rewrite Hb, He. reflexivity.
  - intro Hels. unfold xmi2json.extract_tokens_from_xmi.
    rewrite Hparse. cbn [bind]. rewrite Hels. reflexivity.
Qed.

Lemma missing_sofa_string_witness :
  xmi2conll.convert_to_conll
    (fun _ => Ok {| sofa_element := Some {| attrib := [] |};
                    token_elements := [] |}) [] []
  = Err AttributeError.
Proof.
  exact (proj1 (missing_sofa_string _ []
                  {| sofa_element := Some {| attrib := [] |};
                     token_elements := [] |} eq_refl eq_refl) []).
Defined.

(** ** Missing fields *)

Lemma tokenize_good (text : str) :
  Forall (fun t => td_start t < td_end t) (xmi2conll.tokenize text) /\
  NoDup (map td_start (xmi2conll.tokenize text)).
Proof.
  destruct (located_starts _ _ _ (tokenize_located text)) as [Hall Hnd].
  split; [|exact Hnd].
  eapply Forall_impl; [|exact Hall]. cbn beta. tauto.
Qed.

Lemma tag_span_missing_key (data : list token_datum) (L : zdict str)
    (sp : record) :
  ~ has_span_keys sp -> xmi2conll.tag_span data L sp = Err KeyError.
Proof.
  intro Hno. unfold xmi2conll.tag_span, dict_item.
  destruct (dict_get sp $"label") eqn:El; [|reflexivity].
  destruct (dict_get sp $"begin") eqn:Eb; [|reflexivity].
  destruct (dict_get sp $"end") eqn:Ee; [|reflexivity].
  exfalso. apply Hno. unfold has_span_keys. rewrite El, Eb, Ee.
  repeat split; discriminate.
Qed.

(** X11.  When the spans before it carry a label and integer bounds, a
    span that lacks the label, the begin or the end field makes
    [convert_to_conll] raise a key error, whatever the document text and
    the spans after it. *)
Theorem span_missing_key_raises (ET : str -> result xmi_tree)
    (xmi_content : str) (root : xmi_tree) (text : str)
    (pre post : pdict record) (k : pyval) (sp : record) :
  ET xmi_content = Ok root ->
  xmi2json.sofa_string root = Some text ->
  (forall sp', In sp' (map snd pre) -> span_view sp' <> None) ->
  ~ has_span_keys sp ->
  xmi2conll.convert_to_conll ET xmi_content (pre ++ (k, sp) :: post)
  = Err KeyError.
Proof.
  intros Hparse Hsofa Hpre Hno.
  unfold xmi2conll.convert_to_conll, xmi2conll.extract_sofa_string.
  rewrite Hparse. cbn [bind]. rewrite Hsofa. cbn [bind].
  unfold xmi2conll.conll_rows, xmi2conll.assign_labels.
  rewrite map_app, for_each_app. cbn [map snd].
  destruct (tokenize_good text) as [Hlt Hnd].
  destruct (tag_spans_lookup _ Hlt Hnd (map snd pre)
              (xmi2conll.init_labels (xmi2conll.tokenize text)) Hpre)
    as (L1 & Hrun & _).
  rewrite Hrun. cbn [bind for_each].
  rewrite (tag_span_missing_key _ L1 sp Hno). reflexivity.
Qed.

Lemma span_missing_key_raises_witness :
  ~ has_span_keys [ ($"begin", VInt 0); ($"end", VInt 5) ] /\
  xmi2conll.convert_to_conll (fun _ => Ok paris_tree) []
    (overlap_spans ++ [ (VStr $"3", [ ($"begin", VInt 0); ($"end", VInt 5) ]) ])
  = Err KeyError.
Proof.
  assert (H : ~ has_span_keys [ ($"begin", VInt 0); ($"end", VInt 5) ]).
  { intros (Hl & _). apply Hl. reflexivity. }
  split; [exact H|].
  apply (span_missing_key_raises _ _ paris_tree paris_text overlap_spans []
           _ _ eq_refl eq_refl); [|exact H].
  intros sp' [<- | [<- | []]]; discriminate.
Defined.

(** ** The conversion of a file *)

Lemma record_wf_bounds (r : record) : record_wf r -> span_bounds r <> None.
Proof.
  intros (_ & _ & (b & Hb & _) & (e & He & _)).
  unfold span_bounds. rewrite Hb, He. discriminate.
Qed.

Lemma map_r_pure {A B} (f : A -> result B) (g : A -> B) (l : list A) :
  (forall x, In x l -> f x = Ok (g x)) -> map_r f l = Ok (map g l).
Proof.
  induction l as [|x l IH]; intro H; cbn [map_r map]; [reflexivity|].
  rewrite H by now left. cbn [bind].
  rewrite IH by (intros; apply H; now right). reflexivity.
Qed.

Lemma map_tokens_to_spans_closed (tokens : list token) (lookup : odict str)
    (spans : pdict record) :
  (forall k sp, In (k, sp) spans -> span_bounds sp <> None) ->
  xmi2json.map_tokens_to_spans tokens lookup spans
  = Ok (map (fun kv => (fst kv, mapped_span tokens (snd kv))) spans).
Proof.
  intro Hwf. unfold xmi2json.map_tokens_to_spans. apply map_r_pure.
  intros [k sp] Hin. specialize (Hwf k sp Hin). cbn [fst snd].
  unfold mapped_span.
  destruct (span_bounds sp) as [[b e]|] eqn:Hb; [|congruence].
  now apply map_span_pure.
Qed.

Lemma assoc_get_map_values {K V W} (eqb : K -> K -> bool) (f : V -> W)
    (d : list (K * V)) k :
  assoc_get eqb (map (fun kv => (fst kv, f (snd kv))) d) k
  = option_map f (assoc_get eqb d k).
Proof.
  induction d as [|[k0 v0] d IH]; cbn [map assoc_get fst snd]; [reflexivity|].
  destruct (eqb k0 k); [reflexivity | exact IH].
Qed.

Lemma mapped_span_view (tokens : list token) (sp : record) :
  record_wf sp -> span_view (mapped_span tokens sp) <> None.
Proof.
  intros (_ & (l & Hl) & (b & Hb & _) & (e & He & _)).
  unfold mapped_span, span_bounds. rewrite Hb, He. unfold span_view, dict_get, dict_set.
  rewrite !(assoc_get_set_other str_eqb str_eqb_eq) by discriminate.
  unfold dict_get in *. rewrite Hl, Hb, He. discriminate.
Qed.

Lemma conll_rows_total (text : str) (spans : pdict record) :
  (forall sp, In sp (map snd spans) -> span_view sp <> None) ->
  exists rows,
    xmi2conll.conll_rows text spans = Ok rows /\
    map fst rows = xmi2conll.tokenize text.
Proof.
  intro Hwf. destruct (tokenize_good text) as [Hlt Hnd].
  destruct (tag_spans_lookup _ Hlt Hnd (map snd spans)
              (xmi2conll.init_labels (xmi2conll.tokenize text)) Hwf)
    as (L' & Hrun & Hdef & _).
  destruct (label_rows_ok L' (xmi2conll.tokenize text)) as (rows & Hrows & Hfst & _).
  { intros t Hin. apply Hdef. rewrite init_labels_lookup by assumption.
    discriminate. }
  exists rows. unfold xmi2conll.conll_rows, xmi2conll.assign_labels.
  rewrite Hrun. cbn [bind]. auto.
Qed.

(** The two mappings of a file, as the later stages need them. *)
Lemma custom_annos_usable (xmi_content : str) (ners relations : pdict record) :
  xmi2json.extract_custom_annos xmi_content = Ok (ners, relations) ->
  (forall k sp, In (k, sp) ners -> record_wf sp) /\
  (forall k rel, In (k, rel) relations ->
     record_wf rel /\ dict_get rel $"xmi_id" = Some k /\
     xmi2json.is_relation rel = true).
Proof.
  intro Hres.
  destruct (extract_custom_annos_scan _ _ _ Hres)
    as (annos & Hrun & [_ Hall] & -> & ->).
  rewrite Forall_forall in Hall.
  split.
  - intros k sp Hin. apply filter_In in Hin. destruct Hin as [Hin _].
    exact (proj1 (Hall _ Hin)).
  - intros k rel Hin. apply filter_In in Hin. destruct Hin as [Hin Hrel].
    destruct (Hall _ Hin) as [Hwf Hkey]. auto.
Qed.

(** X12.  The JSON conversion of a file raises exactly when the
    extraction of its tokens or, after it, the extraction of its custom
    annotations raises, and then with the same exception.  When both
    return, it returns the entity spans of [extract_custom_annos], under
    the same keys in the same order, and one flattened record per
    relationship. *)
Theorem process_xmi_file_outcome (ET : str -> result xmi_tree)
    (xmi_content : str) :
  (forall e,
      xmi2json.extract_tokens_from_xmi ET xmi_content = Err e ->
      xmi2json.process_xmi_file ET xmi_content = Err e) /\
  (forall tl e,
      xmi2json.extract_tokens_from_xmi ET xmi_content = Ok tl ->
      xmi2json.extract_custom_annos xmi_content = Err e ->
      xmi2json.process_xmi_file ET xmi_content = Err e) /\
  (forall tokens lookup ners relations,
      xmi2json.extract_tokens_from_xmi ET xmi_content = Ok (tokens, lookup) ->
      xmi2json.extract_custom_annos xmi_content = Ok (ners, relations) ->
      exists spans rels,
        xmi2json.process_xmi_file ET xmi_content = Ok (spans, rels) /\
        map fst spans = map fst ners /\
        length rels = length relations).
Proof.
  split; [|split].
  - intros e He. unfold xmi2json.process_xmi_file. rewrite He. reflexivity.
  - intros tl e Htok He. unfold xmi2json.process_xmi_file.
    rewrite Htok, He. reflexivity.
  - intros tokens lookup ners relations Htok Hannos.
    destruct (custom_annos_usable xmi_content ners relations Hannos)
      as (Hners & Hrels).
    assert (Hmap := map_tokens_to_spans_closed tokens lookup ners
                      (fun k sp H => record_wf_bounds sp (Hners k sp H))).
    set (spans := map (fun kv => (fst kv, mapped_span tokens (snd kv))) ners) in *.
    destruct (map_r_total (xmi2json.map_relationship spans) relations)
      as [rels Hrun].
    { intros [k rel] Hin. destruct (Hrels k rel Hin) as (Hwf & _).
      destruct Hwf as ((id & Hid) & (l & Hl) & _).
      unfold xmi2json.map_relationship, dict_item. cbn [snd].
      rewrite Hid, Hl. eexists. reflexivity. }
    exists spans, rels. split; [|split].
    + unfold xmi2json.process_xmi_file. rewrite Htok, Hannos. cbn [bind fst snd].
      rewrite Hmap. cbn [bind]. unfold xmi2json.map_relationships.
      rewrite Hrun. reflexivity.
    + unfold spans. rewrite map_map. reflexivity.
    + exact (proj1 (map_r_nth _ _ _ Hrun)).
Qed.

Lemma process_xmi_file_outcome_witness :
  exists spans rels,
    xmi2json.process_xmi_file (fun _ => Ok (one_token_tree "0" "5"))
      chase_content = Ok (spans, rels) /\
    map fst spans = [ VStr $"5" ] /\ length rels = 1%nat.
Proof.
  refine (proj2 (proj2 (process_xmi_file_outcome
                          (fun _ => Ok (one_token_tree "0" "5")) chase_content))
            [ {| tok_xmi_id := None; tok_begin := 0; tok_end := 5;
                 tok_token := $"Paris" |} ]
            [ ((0, 5), $"Paris") ]
            [ (VStr $"5",
               [ ($"xmi_id", VStr $"5"); ($"begin", VInt 0);
                 ($"end", VInt 5); ($"label", VStr $"Animal");
                 ($"id", VStr $"5") ]) ]
            [ (VStr $"7",
               [ ($"xmi_id", VStr $"7"); ($"begin", VInt 0);
                 ($"end", VInt 5); ($"label", VStr $"Chases");
                 ($"id", VStr $"7"); ($"Dependent", VStr $"5");
                 ($"Governor", VStr $"9") ]) ] _ _).
  - vm_compute. reflexivity.
  - vm_compute. reflexivity.
Defined.

(** X13.  In the JSON conversion of a file whose tokens are extracted
    without exception, the flattened record of each relationship carries
    the key of the relationship as its identifier, and each of its two
    sides is the derived text of the entity span of the file that the
    relationship's Dependent or Governor attribute names (the joined text
    of the tokens that begin within the span, or UNKNOWN if none does), and
    UNKNOWN when the attribute names no entity span of the file. *)
Theorem relationship_sides_in_file (ET : str -> result xmi_tree)
    (xmi_content : str) (tokens : list token) (lookup : odict str)
    (ners relations : pdict record) :
  xmi2json.extract_tokens_from_xmi ET xmi_content = Ok (tokens, lookup) ->
  xmi2json.extract_custom_annos xmi_content = Ok (ners, relations) ->
  exists spans rels,
    xmi2json.process_xmi_file ET xmi_content = Ok (spans, rels) /\
    forall i k rel,
      nth_error relations i = Some (k, rel) ->
      exists r,
        nth_error rels i = Some r /\
        rel_xmi_id r = k /\
        side_text tokens ners rel $"Dependent" (rel_dep r) /\
        side_text tokens ners rel $"Governor" (rel_gov r).
Proof.
  intros Htok Hannos.
  destruct (custom_annos_usable xmi_content ners relations Hannos)
    as (Hners & Hrels).
  assert (Hmap := map_tokens_to_spans_closed tokens lookup ners
                    (fun k sp H => record_wf_bounds sp (Hners k sp H))).
  set (spans := map (fun kv => (fst kv, mapped_span tokens (snd kv))) ners) in *.
  assert (Hside : forall k rel side,
            In (k, rel) relations ->
            dict_get rel side <> None ->
            side_text tokens ners rel side (xmi2json.resolve spans rel side)).
  { intros k rel side Hin Hsome. unfold side_text, xmi2json.resolve.
    destruct (dict_get rel side) as [ref|]; [|congruence].
    exists ref. split; [reflexivity|].
    unfold pdict_get, spans. rewrite assoc_get_map_values.
    destruct (assoc_get pyval_eqb ners ref) as [sp|] eqn:Hget;
      cbn [option_map]; [|reflexivity].
    assert (Hwf : record_wf sp).
    { apply (Hners ref sp).
      exact (assoc_get_In pyval_eqb pyval_eqb_eq _ _ _ Hget). }
    pose proof (record_wf_bounds sp Hwf) as Hb. unfold mapped_span.
    destruct (span_bounds sp) as [[b e]|]; [|congruence].
    exists b, e. split; [reflexivity|].
    unfold dict_get, dict_set.
    now rewrite (assoc_get_set_same str_eqb str_eqb_eq). }
  destruct (map_r_total (xmi2json.map_relationship spans) relations)
    as [rels Hrun].
  { intros [k rel] Hin. destruct (Hrels k rel Hin) as (Hwf & _).
    destruct Hwf as ((id & Hid) & (l & Hl) & _).
    unfold xmi2json.map_relationship, dict_item. cbn [snd].
    rewrite Hid, Hl. eexists. reflexivity. }
  exists spans, rels. split.
  { unfold xmi2json.process_xmi_file. rewrite Htok, Hannos. cbn [bind fst snd].
    rewrite Hmap. cbn [bind]. unfold xmi2json.map_relationships.
    rewrite Hrun. reflexivity. }
  intros i k rel Hi.
  destruct (proj2 (map_r_nth _ _ _ Hrun) i _ Hi) as (r & Hr & Hf).
  assert (Hin : In (k, rel) relations) by (eapply nth_error_In; eauto).
  destruct (Hrels k rel Hin) as (Hwf & Hkey & Hisrel).
  destruct Hwf as (_ & (l & Hl) & _).
  unfold xmi2json.map_relationship, dict_item in Hf. cbn [snd] in Hf.
  rewrite Hkey, Hl in Hf. cbn [bind] in Hf. inversion Hf. subst r.
  exists {| rel_xmi_id := k; rel_label := VStr l;
            rel_dep := xmi2json.resolve spans rel $"Dependent";
            rel_gov := xmi2json.resolve spans rel $"Governor" |}.
  cbn [rel_xmi_id rel_dep rel_gov].
  unfold xmi2json.is_relation, dict_mem in Hisrel.
  apply andb_true_iff in Hisrel. destruct Hisrel as [Hd Hg].
  repeat split; auto.
  - apply (Hside k); [exact Hin|].
    destruct (dict_get rel $"Dependent"); [discriminate | discriminate].
  - apply (Hside k); [exact Hin|].
    destruct (dict_get rel $"Governor"); [discriminate | discriminate].
Qed.

Lemma relationship_sides_in_file_witness :
  xmi2json.process_xmi_file (fun _ => Ok (one_token_tree "0" "5"))
    chase_content
  = Ok ([ (VStr $"5",
           [ ($"xmi_id", VStr $"5"); ($"begin", VInt 0); ($"end", VInt 5);
             ($"label", VStr $"Animal"); ($"id", VStr $"5");
             ($"token", VStr $"Paris") ]) ],
        [ {| rel_xmi_id := VStr $"7"; rel_label := VStr $"Chases";
             rel_dep := VStr $"Paris"; rel_gov := VStr $"UNKNOWN" |} ]).
Proof.
  destruct (relationship_sides_in_file
              (fun _ => Ok (one_token_tree "0" "5")) chase_content
              [ {| tok_xmi_id := None; tok_begin := 0; tok_end := 5;
                   tok_token := $"Paris" |} ]
              [ ((0, 5), $"Paris") ]
              [ (VStr $"5",
                 [ ($"xmi_id", VStr $"5"); ($"begin", VInt 0);
                   ($"end", VInt 5); ($"label", VStr $"Animal");
                   ($"id", VStr $"5") ]) ]
              [ (VStr $"7",
                 [ ($"xmi_id", VStr $"7"); ($"begin", VInt 0);
                   ($"end", VInt 5); ($"label", VStr $"Chases");
                   ($"id", VStr $"7"); ($"Dependent", VStr $"5");
                   ($"Governor", VStr $"9") ]) ])
    as (spans & rels & Hrun & _).
  - vm_compute. reflexivity.
  - vm_compute. reflexivity.
  - vm_compute. reflexivity.
Defined.

(** X14.  The CoNLL conversion of a file raises when the extraction of its
    tokens raises or, after it, the extraction of its custom annotations
    raises, with the same exception, and raises an attribute error when
    both return and the Sofa element has no sofaString.  When both return
    and there is a document text, it raises nothing and its output has one
    line per whitespace token of the text, in order. *)
Theorem process_xmi_to_conll_outcome (ET : str -> result xmi_tree)
    (xmi_content : str) :
  (forall e,
      xmi2json.extract_tokens_from_xmi ET xmi_content = Err e ->
      xmi2conll.process_xmi_to_conll ET xmi_content = Err e) /\
  (forall tl e,
      xmi2json.extract_tokens_from_xmi ET xmi_content = Ok tl ->
      xmi2json.extract_custom_annos xmi_content = Err e ->
      xmi2conll.process_xmi_to_conll ET xmi_content = Err e) /\
  (forall tokens lookup ners relations root,
      xmi2json.extract_tokens_from_xmi ET xmi_content = Ok (tokens, lookup) ->
      xmi2json.extract_custom_annos xmi_content = Ok (ners, relations) ->
      ET xmi_content = Ok root ->
      (xmi2json.sofa_string root = None ->
       xmi2conll.process_xmi_to_conll ET xmi_content = Err AttributeError) /\
      (forall text,
          xmi2json.sofa_string root = Some text ->
          exists rows,
            xmi2conll.process_xmi_to_conll ET xmi_content
            = Ok (lines (map xmi2conll.format_row rows)) /\
            map fst rows = xmi2conll.tokenize text)).
Proof.
  split; [|split].
  - intros e He. unfold xmi2conll.process_xmi_to_conll. rewrite He. reflexivity.
  - intros tl e Htok He. unfold xmi2conll.process_xmi_to_conll.
    rewrite Htok, He. reflexivity.
  - intros tokens lookup ners relations root Htok Hannos Hparse.
    destruct (custom_annos_usable xmi_content ners relations Hannos)
      as (Hners & _).
    assert (Hmap := map_tokens_to_spans_closed tokens lookup ners
                      (fun k sp H => record_wf_bounds sp (Hners k sp H))).
    set (spans := map (fun kv => (fst kv, mapped_span tokens (snd kv))) ners) in *.
    assert (Hrun : xmi2conll.process_xmi_to_conll ET xmi_content
                   = xmi2conll.convert_to_conll ET xmi_content spans).
    { unfold xmi2conll.process_xmi_to_conll. rewrite Htok, Hannos.
      cbn [bind fst snd]. rewrite Hmap. reflexivity. }
    rewrite Hrun.
    unfold xmi2conll.convert_to_conll, xmi2conll.extract_sofa_string.
    rewrite Hparse. cbn [bind]. split.
    + intros ->. reflexivity.
    + intros text ->. cbn [bind].
      destruct (conll_rows_total text spans) as (rows & Hrows & Hfst).
      { intros sp Hin. unfold spans in Hin. rewrite map_map in Hin.
        apply in_map_iff in Hin. destruct Hin as ([k sp0] & <- & Hin).
        cbn [fst snd]. apply mapped_span_view. exact (Hners k sp0 Hin). }
      exists rows. rewrite Hrows. cbn [bind]. auto.
Qed.

Lemma process_xmi_to_conll_outcome_witness :
  exists rows,
    xmi2conll.process_xmi_to_conll (fun _ => Ok (one_token_tree "0" "5"))
      chase_content
    = Ok (lines (map xmi2conll.format_row rows)) /\
    map fst rows = xmi2conll.tokenize paris_text.
Proof.
  refine (proj2 (proj2 (proj2 (process_xmi_to_conll_outcome
                          (fun _ => Ok (one_token_tree "0" "5")) chase_content))
                   [ {| tok_xmi_id := None; tok_begin := 0; tok_end := 5;
                        tok_token := $"Paris" |} ]
                   [ ((0, 5), $"Paris") ]
                   [ (VStr $"5",
                      [ ($"xmi_id", VStr $"5"); ($"begin", VInt 0);
                        ($"end", VInt 5); ($"label", VStr $"Animal");
                        ($"id", VStr $"5") ]) ]
                   [ (VStr $"7",
                      [ ($"xmi_id", VStr $"7"); ($"begin", VInt 0);
                        ($"end", VInt 5); ($"label", VStr $"Chases");
                        ($"id", VStr $"7"); ($"Dependent", VStr $"5");
                        ($"Governor", VStr $"9") ]) ]
                   (one_token_tree "0" "5") _ _ eq_refl)
            paris_text eq_refl).
  - vm_compute. reflexivity.
  - vm_compute. reflexivity.
Defined.

(** ** Spans without tokens *)

(** X15.  With an empty token list [map_tokens_to_spans] raises nothing,
    whatever the spans hold (their begin and end fields are not read), and
    sets the token field of every span to UNKNOWN, keeping keys, order and
    the other fields. *)
Theorem map_tokens_to_spans_no_tokens (token_lookup : odict str)
    (spans : pdict record) :
  xmi2json.map_tokens_to_spans [] token_lookup spans
  = Ok (map (fun kv => (fst kv, dict_set (snd kv) $"token" (VStr UNKNOWN)))
          spans).
Proof.
  unfold xmi2json.map_tokens_to_spans. apply map_r_pure.
  intros [k sp] _. reflexivity.
Qed.

(** ** The whitespace tokens cover the text *)

Lemma build_token_data_cover (toks : list str) :
  forall pre s,
    split_ws s = toks ->
    forall i c,
      nth_error (pre ++ s) i = Some c ->
      (length pre <= i)%nat ->
      (isspace c = false <->
       exists t,
         In t (xmi2conll.build_token_data (pre ++ s) toks (len pre)) /\
         td_start t <= Z.of_nat i < td_end t).
Proof.
  induction toks as [|tok toks IH]; intros pre s Hs i c Hnth Hi.
  - cbn [xmi2conll.build_token_data]. apply split_ws_nil in Hs.
    rewrite nth_error_app2 in Hnth by exact Hi.
    apply nth_error_In in Hnth. rewrite forallb_forall in Hs.
    rewrite (Hs c Hnth). split; [discriminate | intros (t & [] & _)].
  - destruct (split_ws_cons _ _ _ Hs) as (ws & rest & -> & Hws & Hne & Htok & Hrest).
    pose proof (build_token_data_located toks (pre ++ ws ++ tok) rest Hrest)
      as Hloc.
    apply located_starts in Hloc. destruct Hloc as [Hafter _].
    rewrite Forall_forall in Hafter.
    cbn [xmi2conll.build_token_data].
    rewrite find_at_cursor by assumption.
    replace (len pre + len ws + len tok) with (len (pre ++ ws ++ tok))
      by (rewrite !len_app; lia).
    replace (pre ++ ws ++ tok ++ rest) with ((pre ++ ws ++ tok) ++ rest) in *
      by now rewrite <- !app_assoc.
    assert (Hlen : len (pre ++ ws ++ tok) = len pre + len ws + len tok)
      by (rewrite !len_app; lia).
    unfold len in Hlen.
    assert (Hlen' : length (pre ++ ws ++ tok)
                    = (length pre + length ws + length tok)%nat)
      by (rewrite !length_app; lia).
    destruct (Nat.lt_ge_cases i (length pre + length ws)) as [Hin_ws | Hge_ws];
      [|destruct (Nat.lt_ge_cases i (length pre + length ws + length tok))
          as [Hin_tok | Hge_tok]].
    + (* in the whitespace before the token *)
      assert (Hc : isspace c = true).
      { rewrite nth_error_app1 in Hnth by lia.
        rewrite nth_error_app2 in Hnth by exact Hi.
        rewrite nth_error_app1 in Hnth by lia.
        apply nth_error_In in Hnth. rewrite forallb_forall in Hws. auto. }
      rewrite Hc. split; [discriminate|].
      intros (t & [<- | Hin] & Hr).
      * unfold td_start, td_end, len in Hr. cbn [fst snd] in Hr. lia.
      * destruct (Hafter t Hin) as [H1 _]. unfold len in *. lia.
    + (* inside the token *)
      assert (Hc : isspace c = false).
      { rewrite nth_error_app1 in Hnth by lia.
        rewrite nth_error_app2 in Hnth by exact Hi.
        rewrite nth_error_app2 in Hnth by lia.
        apply nth_error_In in Hnth. rewrite forallb_forall in Htok.
        specialize (Htok c Hnth). unfold notspace in Htok.
        now destruct (isspace c). }
      rewrite Hc. split; [intros _ | reflexivity].
      eexists. split; [left; reflexivity|].
      unfold td_start, td_end, len. cbn [fst snd]. lia.
    + (* after the token *)
      rewrite (IH (pre ++ ws ++ tok) rest Hrest i c Hnth) by lia.
      split.
      * intros (t & Hin & Hr). exists t. split; [now right | exact Hr].
      * intros (t & [<- | Hin] & Hr); [|eauto].
        unfold td_start, td_end, len in Hr. cbn [fst snd] in Hr. lia.
Qed.

(** X16.  The whitespace tokens of [convert_to_conll] cover the document
    text: a character of the text is not whitespace exactly when its
    offset lies within the offsets, from start to end exclusive, of one
    of the tokens. *)
Theorem tokenize_covers_text (text : str) (i : nat) (c : ascii) :
  nth_error text i = Some c ->
  (isspace c = false <->
   exists t,
     In t (xmi2conll.tokenize text) /\
     td_start t <= Z.of_nat i < td_end t).
Proof.
  intro Hnth.
  exact (build_token_data_cover (split_ws text) [] text eq_refl i c Hnth
           (Nat.le_0_l i)).
Qed.

Lemma tokenize_covers_text_witness :
  nth_error overlap_text 4 = Some "Y"%char /\
  exists t,
    In t (xmi2conll.tokenize overlap_text) /\ td_start t <= 4 < td_end t.
Proof.
  split; [reflexivity|].
  exact (proj1 (tokenize_covers_text overlap_text 4 "Y"%char eq_refl) eq_refl).
Defined.

Lemma located_sorted (text : str) cur data :
  located text cur data ->
  forall i j ti tj,
    (i < j)%nat ->
    nth_error data i = Some ti ->
    nth_error data j = Some tj ->
    td_end ti <= td_start tj.
Proof.
  induction 1 as [cur | cur tok st en rest Hcur Hne Hns Hen Hle Hsl Hgap Hrest IH];
    intros i j ti tj Hij Hi Hj.
  - destruct i; discriminate.
  - destruct j as [|j]; [lia|]. cbn [nth_error] in Hj.
    destruct i as [|i]; cbn [nth_error] in Hi.
    + inversion Hi. subst ti. unfold td_end at 1. cbn [snd].
      destruct (located_starts _ _ _ Hrest) as [Hall _].
      rewrite Forall_forall in Hall.
      destruct (Hall tj (nth_error_In _ _ Hj)) as [H1 _]. exact H1.
    + eapply IH; [|exact Hi | exact Hj]. lia.
Qed.

(** X17.  Every whitespace token of [convert_to_conll] is not empty,
    contains no whitespace and lies within the text, and the tokens come
    in increasing order without overlap: each token ends at or before the
    start of every later one, so that no two tokens share a start
    offset. *)
Theorem tokenize_ordered (text : str) (i : nat) (ti : token_datum) :
  nth_error (xmi2conll.tokenize text) i = Some ti ->
  td_token ti <> [] /\
  forallb notspace (td_token ti) = true /\
  0 <= td_start ti < td_end ti /\
  td_end ti <= len text /\
  forall j tj,
    (i < j)%nat ->
    nth_error (xmi2conll.tokenize text) j = Some tj ->
    td_end ti <= td_start tj /\ td_start ti < td_start tj.
Proof.
  intros Hi.
  pose proof (tokenize_located text) as Hloc.
  destruct (located_nth _ _ _ Hloc i ti Hi) as (Hc & Hne & He & Hle & _).
  destruct (located_starts _ _ _ Hloc) as [Hall _].
  rewrite Forall_forall in Hall.
  destruct (Hall ti (nth_error_In _ _ Hi)) as [_ Hlti].
  pose proof (located_notspace _ _ _ Hloc) as Hns.
  rewrite Forall_forall in Hns.
  repeat split; auto; try lia.
  - apply Hns. eapply nth_error_In; eauto.
  - exact (located_sorted _ _ _ Hloc i j ti tj H Hi H0).
  - pose proof (located_sorted _ _ _ Hloc i j ti tj H Hi H0). lia.
Qed.

Lemma tokenize_ordered_witness :
  nth_error (xmi2conll.tokenize overlap_text) 1 = Some ($"York", 4, 8) /\
  nth_error (xmi2conll.tokenize overlap_text) 3 = Some ($"hall", 14, 18) /\
  td_end ($"York", 4, 8) <= td_start ($"hall", 14, 18).
Proof.
  split; [reflexivity|]. split; [reflexivity|].
  exact (proj1 (proj2 (proj2 (proj2 (proj2
    (tokenize_ordered overlap_text 1%nat ($"York", 4, 8) eq_refl))))
     3%nat ($"hall", 14, 18)
     (Nat.lt_trans _ _ _ (Nat.lt_succ_diag_r 1) (Nat.lt_succ_diag_r 2))
     eq_refl)).
Defined.

(** ** Missing fields in the JSON path *)

Lemma map_r_app {A B} (f : A -> result B) (l1 l2 : list A) :
  map_r f (l1 ++ l2) =
  bind (map_r f l1) (fun ys1 =>
  bind (map_r f l2) (fun ys2 => Ok (ys1 ++ ys2))).
Proof.
  induction l1 as [|x l1 IH]; cbn [app map_r bind].
  - destruct (map_r f l2); reflexivity.
  - destruct (f x) as [y|]; cbn [bind]; [|reflexivity].
    rewrite IH. destruct (map_r f l1) as [ys1|]; cbn [bind]; [|reflexivity].
    destruct (map_r f l2); reflexivity.
Qed.

(** X18.  When the relationship records before it carry an identifier and
    a label, a relationship record that lacks the xmi_id or the label
    field makes [map_relationships] raise a key error, whatever the
    entity spans and the records after it. *)
Theorem relationship_missing_key_raises (pre post : pdict record)
    (k : pyval) (rel : record) (ners : pdict record) :
  (forall k' rel', In (k', rel') pre ->
     dict_get rel' $"xmi_id" <> None /\ dict_get rel' $"label" <> None) ->
  dict_get rel $"xmi_id" = None \/ dict_get rel $"label" = None ->
  xmi2json.map_relationships (pre ++ (k, rel) :: post) ners = Err KeyError.
Proof.
  intros Hpre Hmiss. unfold xmi2json.map_relationships. rewrite map_r_app.
  destruct (map_r_total (xmi2json.map_relationship ners) pre) as [ys Hys].
  { intros [k' rel'] Hin. destruct (Hpre k' rel' Hin) as [Hid Hl].
    unfold xmi2json.map_relationship, dict_item. cbn [snd].
    destruct (dict_get rel' $"xmi_id"); [|congruence].
    destruct (dict_get rel' $"label"); [|congruence].
    eexists. reflexivity. }
  rewrite Hys. cbn [bind map_r].
  unfold xmi2json.map_relationship at 1, dict_item. cbn [snd].
  destruct Hmiss as [-> | Hl]; [reflexivity|].
  rewrite Hl. now destruct (dict_get rel $"xmi_id").
Qed.

Lemma relationship_missing_key_raises_witness :
  xmi2json.map_relationships
    (cat_relations ++ [ (VStr $"8", [ ($"xmi_id", VStr $"8") ]) ]) cat_ners
  = Err KeyError.
Proof.
  apply (relationship_missing_key_raises cat_relations []).
  - intros k' rel' [H | []]. inversion H. subst. split; discriminate.
  - right. reflexivity.
Defined.

Lemma filter_r_raises {A} (f : A -> result bool) (l : list A) (x : A) e :
  In x l ->
  f x = Err e ->
  (forall y, In y l -> f y = Err e \/ exists b, f y = Ok b) ->
  filter_r f l = Err e.
Proof.
  intros Hin Hx Hall. induction l as [|y l IH]; [destruct Hin|].
  cbn [filter_r].
  destruct (Hall y (or_introl eq_refl)) as [Hy | [b Hy]]; rewrite Hy;
    cbn [bind]; [reflexivity|].
  destruct Hin as [-> | Hin]; [congruence|].
  rewrite IH; [reflexivity | exact Hin |].
  intros. apply Hall. now right.
Qed.

(** X19.  The end field of a span is read only for a token that begins at
    or after the span's begin.  For a span with an integer begin and no
    end field, after spans with integer bounds, [map_tokens_to_spans]
    raises a key error as soon as some token begins at or after the
    span's begin; when every token begins before it, the span alone is
    mapped without exception and its token field is UNKNOWN. *)
Theorem span_without_end (tokens : list token) (token_lookup : odict str)
    (pre post : pdict record) (k : pyval) (sp : record) (b : Z) :
  dict_get sp $"begin" = Some (VInt b) ->
  dict_get sp $"end" = None ->
  (forall k' sp', In (k', sp') pre -> span_bounds sp' <> None) ->
  ((exists t, In t tokens /\ b <= tok_begin t) ->
   xmi2json.map_tokens_to_spans tokens token_lookup (pre ++ (k, sp) :: post)
   = Err KeyError) /\
  ((forall t, In t tokens -> tok_begin t < b) ->
   xmi2json.map_tokens_to_spans tokens token_lookup [ (k, sp) ]
   = Ok [ (k, dict_set sp $"token" (VStr UNKNOWN)) ]).
Proof.
  intros Hb He Hpre.
  assert (Hstep : forall t,
            xmi2json.starts_in_span sp t
            = if b <=? tok_begin t then Err KeyError else Ok false).
  { intro t. unfold xmi2json.starts_in_span, dict_item.
    rewrite Hb, He. cbn [bind val_le_int].
    destruct (b <=? tok_begin t); reflexivity. }
  split.
  - intros (t & Hin & Hle).
    unfold xmi2json.map_tokens_to_spans. rewrite map_r_app.
    fold (xmi2json.map_tokens_to_spans tokens token_lookup pre).
    rewrite (map_tokens_to_spans_closed tokens token_lookup pre Hpre).
    cbn [bind map_r]. unfold xmi2json.map_span at 1.
    rewrite (filter_r_raises _ tokens t KeyError Hin).
    + reflexivity.
    + rewrite Hstep. apply Z.leb_le in Hle. now rewrite Hle.
    + intros y _. rewrite Hstep. destruct (b <=? tok_begin y); eauto.
  - intros Hbefore. unfold xmi2json.map_tokens_to_spans.
    cbn [map_r]. unfold xmi2json.map_span.
    rewrite (filter_r_pure _ (fun _ => false)).
    + assert (Hnil : filter (fun _ : token => false) tokens = []).
      { clear. induction tokens; auto. }
      rewrite Hnil. reflexivity.
    + intros t Hin. rewrite Hstep.
      specialize (Hbefore t Hin). apply Z.leb_gt in Hbefore.
      now rewrite Hbefore.
Qed.

Lemma span_without_end_witness :
  xmi2json.map_tokens_to_spans cat_tokens []
    (cat_spans ++ [ (VStr $"7", [ ($"begin", VInt 10) ]) ])
  = Err KeyError.
Proof.
  assert (Hpre : forall k' sp', In (k', sp') cat_spans ->
                                span_bounds sp' <> None).
  { intros k' sp' [H | [H | []]]; inversion H; subst; discriminate. }
  apply (proj1 (span_without_end cat_tokens [] cat_spans [] (VStr $"7")
                  [ ($"begin", VInt 10) ] 10 eq_refl eq_refl Hpre)).
  exists {| tok_xmi_id := None; tok_begin := 10; tok_end := 13;
            tok_token := $"cat" |}.
  split; [right; right; left; reflexivity | cbn [tok_begin]; lia].
Defined.
